(** * smoothie/tui: the session bubble, its configuration and its refresher

    A shallow embedding of [tui/bubble.go]: the [Bubble] controller
    ([NewBubble], [Update], [viewForBox], [View]), the configuration loader
    [loadConfig] and the start-up code [SessionHandler] with its polling
    goroutine.

    Conventions.
    - A Go [int] is a [Z] kept in the 64-bit two's complement range by
      [wrap]; Go's [%] is the truncated remainder [Z.rem].
    - A run-time panic (index out of range, nil dereference, method call on
      a nil interface) is [None] of an [option] result.
    - Code that lives outside [tui/bubble.go] (the panels, the git package,
      the lipgloss styles, [encoding/json]) is taken through the classes
      [Panel], [Layout] and [Externals], or modelled by a few definitions whose
      comment says so. *)

From Stdlib Require Import ZArith Lia Ascii String.
From stdpp Require Import base option list strings.

Local Open Scope Z_scope.
Local Open Scope string_scope.
Local Set Warnings "-register-all".

(** ** Machine integers *)

Definition int_min : Z := - 2 ^ 63.
Definition int_max : Z := 2 ^ 63 - 1.

(** Two's complement wrap-around of a 64-bit [int]. *)
Definition wrap (z : Z) : Z := (z + 2 ^ 63) mod 2 ^ 64 - 2 ^ 63.

Definition int_add (a b : Z) : Z := wrap (a + b).
Definition int_sub (a b : Z) : Z := wrap (a - b).
(** Go's [a % b] for [b <> 0]: the remainder has the sign of [a]. *)
Definition int_rem (a b : Z) : Z := Z.rem a b.

(** [l[i]] for a Go slice: [None] stands for the index-out-of-range panic. *)
Definition index {A : Type} (l : list A) (i : Z) : option A :=
  if bool_decide (0 <= i < Z.of_nat (length l)) then l !! Z.to_nat i else None.

(** ** JSON documents

    [encoding/json] is a library: a document is taken after scanning, as the
    tree the decoder walks. Object members keep their order and their
    duplicates, since the decoder visits them one by one. A number literal
    without fraction and exponent is [JInt]; any other literal is [JFloat]. *)

Inductive JSON : Type :=
| JNull
| JBool (b : bool)
| JString (s : string)
| JInt (n : Z)
| JFloat (lit : string)
| JArray (vs : list JSON)
| JObject (ms : list (string * JSON)).

(** The [Value] of a [json.UnmarshalTypeError]. *)
Inductive JsonKind : Type := KBool | KString | KNumber | KArray | KObject.

Inductive JsonError : Type :=
| SyntaxError
| UnmarshalTypeError (Value : JsonKind).

(** [decodeState.saveError]: only the first error is kept. *)
Definition saveError (saved : option JsonError) (e : JsonError) : option JsonError :=
  match saved with
  | None => Some e
  | Some _ => saved
  end.

(** The errors of a nested decoding, saved in their turn. *)
Definition saveErrors (saved : option JsonError) (err : option JsonError)
  : option JsonError :=
  match err with
  | None => saved
  | Some e => saveError saved e
  end.

Definition kindOf (j : JSON) : option JsonKind :=
  match j with
  | JNull => None
  | JBool _ => Some KBool
  | JString _ => Some KString
  | JInt _ | JFloat _ => Some KNumber
  | JArray _ => Some KArray
  | JObject _ => Some KObject
  end.

(** Saving the type error of a value that does not fit its target; [null]
    never is an error. *)
Definition mismatch (saved : option JsonError) (j : JSON) : option JsonError :=
  match kindOf j with
  | None => saved
  | Some k => saveError saved (UnmarshalTypeError k)
  end.

(** *** Matching a key with a struct field

    The decoder takes the field whose name is the key, and otherwise the
    first field whose name equals the key under case folding. Folding maps
    an ASCII letter to its upper case; the only other runes that fold to an
    ASCII letter are the Kelvin sign U+212A (bytes E2 84 AA, to K) and the
    long s U+017F (bytes C5 BF, to S). All field names here are ASCII, so
    the other bytes can stay as they are. *)

Definition upper (c : ascii) : ascii :=
  let n := nat_of_ascii c in
  if bool_decide (97 <= n <= 122)%nat then ascii_of_nat (n - 32) else c.

Definition is_long_s (c1 c2 : ascii) : bool :=
  bool_decide (nat_of_ascii c1 = 197%nat /\ nat_of_ascii c2 = 191%nat).

Definition is_kelvin (c1 c2 c3 : ascii) : bool :=
  bool_decide (nat_of_ascii c1 = 226%nat /\ nat_of_ascii c2 = 132%nat
               /\ nat_of_ascii c3 = 170%nat).

Fixpoint foldName (s : string) : string :=
  match s with
  | EmptyString => EmptyString
  | String c t =>
      match t with
      | EmptyString => String (upper c) EmptyString
      | String c2 t2 =>
          if is_long_s c c2 then String "S" (foldName t2)
          else
            match t2 with
            | EmptyString => String (upper c) (foldName t)
            | String c3 t3 =>
                if is_kelvin c c2 c3 then String "K" (foldName t3)
                else String (upper c) (foldName t)
            end
      end
  end.

Definition equalFold (name key : string) : bool :=
  String.eqb (foldName name) (foldName key).

Section FindField.
Context {F : Type}.

Fixpoint exactField (fields : list (string * F)) (key : string) : option F :=
  match fields with
  | [] => None
  | (name, f) :: rest => if String.eqb name key then Some f else exactField rest key
  end.

Fixpoint foldedField (fields : list (string * F)) (key : string) : option F :=
  match fields with
  | [] => None
  | (name, f) :: rest => if equalFold name key then Some f else foldedField rest key
  end.

Definition findField (fields : list (string * F)) (key : string) : option F :=
  match exactField fields key with
  | Some f => Some f
  | None => foldedField fields key
  end.
End FindField.

(** ** The configuration *)

Record MenuEntry : Type := mkMenuEntry {
  MenuEntry_Name : string;   (* `json:"name"` *)
  MenuEntry_Note : string;   (* `json:"note"` *)
  MenuEntry_Repo : string    (* `json:"repo"` *)
}.

Definition zeroMenuEntry : MenuEntry := mkMenuEntry "" "" "".

Inductive MenuEntryField : Type := MName | MNote | MRepo.

Definition menuEntryFields : list (string * MenuEntryField) :=
  [("name", MName); ("note", MNote); ("repo", MRepo)].

(** Decoding a value into a [string] field. *)
Definition decodeString (j : JSON) (old : string) (saved : option JsonError)
  : string * option JsonError :=
  match j with
  | JString s => (s, saved)
  | _ => (old, mismatch saved j)
  end.

(** Decoding a value into a [bool] field. *)
Definition decodeBool (j : JSON) (old : bool) (saved : option JsonError)
  : bool * option JsonError :=
  match j with
  | JBool b => (b, saved)
  | _ => (old, mismatch saved j)
  end.

(** Decoding a value into an [int64] field: [strconv.ParseInt(s, 10, 64)]
    accepts the integer literals of the 64-bit range. *)
Definition decodeInt64 (j : JSON) (old : Z) (saved : option JsonError)
  : Z * option JsonError :=
  match j with
  | JInt n =>
      if bool_decide (int_min <= n <= int_max) then (n, saved)
      else (old, saveError saved (UnmarshalTypeError KNumber))
  | _ => (old, mismatch saved j)
  end.

Definition setMenuEntryField (f : MenuEntryField) (j : JSON) (e : MenuEntry)
    (saved : option JsonError) : MenuEntry * option JsonError :=
  match f with
  | MName => let '(s, sv) := decodeString j (MenuEntry_Name e) saved in
             (mkMenuEntry s (MenuEntry_Note e) (MenuEntry_Repo e), sv)
  | MNote => let '(s, sv) := decodeString j (MenuEntry_Note e) saved in
             (mkMenuEntry (MenuEntry_Name e) s (MenuEntry_Repo e), sv)
  | MRepo => let '(s, sv) := decodeString j (MenuEntry_Repo e) saved in
             (mkMenuEntry (MenuEntry_Name e) (MenuEntry_Note e) s, sv)
  end.

(** The members of an object decoded, in order, into a [MenuEntry]; a key
    that matches no field is skipped. *)
Fixpoint decodeMenuEntryMembers (ms : list (string * JSON)) (e : MenuEntry)
    (saved : option JsonError) : MenuEntry * option JsonError :=
  match ms with
  | [] => (e, saved)
  | (key, j) :: rest =>
      match findField menuEntryFields key with
      | Some f =>
          let '(e', sv) := setMenuEntryField f j e saved in
          decodeMenuEntryMembers rest e' sv
      | None => decodeMenuEntryMembers rest e saved
      end
  end.

Definition decodeMenuEntry (j : JSON) (e : MenuEntry) (saved : option JsonError)
  : MenuEntry * option JsonError :=
  match j with
  | JObject ms => decodeMenuEntryMembers ms e saved
  | _ => (e, mismatch saved j)
  end.

(** A Go slice of menu entries: its backing array [arr] (whose length is
    the capacity) and its length [len]. The decoder reuses both. *)
Record Slice : Type := mkSlice {
  arr : list MenuEntry;
  len : nat
}.

Definition nilSlice : Slice := mkSlice [] 0.
Definition cap (s : Slice) : nat := length (arr s).
Definition elems (s : Slice) : list MenuEntry := take (len s) (arr s).

(** The loop of [decodeState.array] first grows the slice when the
    element [i] is beyond its capacity, by half and to four at least,
    keeping the elements below its length. *)
Definition growSlice (i : nat) (s : Slice) : Slice :=
  if bool_decide (cap s <= i)%nat then
    let newcap := (cap s + cap s / 2)%nat in
    let newcap := if bool_decide (newcap < 4)%nat then 4%nat else newcap in
    mkSlice (take (len s) (arr s) ++ replicate (newcap - len s) zeroMenuEntry) (len s)
  else s.

(** Then it sets the length to [i + 1] when the element is beyond it. *)
Definition extendSlice (i : nat) (s : Slice) : Slice :=
  if bool_decide (len s <= i)%nat then mkSlice (arr s) (S i) else s.

(** One round of the loop for the element [i]: the value is decoded into
    the element the slice has there. *)
Definition decodeElement (i : nat) (j : JSON) (s : Slice) (saved : option JsonError)
  : Slice * option JsonError :=
  let s2 := extendSlice i (growSlice i s) in
  match arr s2 !! i with
  | Some e =>
      let '(e', sv) := decodeMenuEntry j e saved in
      (mkSlice (<[i := e']> (arr s2)) (len s2), sv)
  | None => (s2, saved)
  end.

Fixpoint decodeElements (i : nat) (vs : list JSON) (s : Slice)
    (saved : option JsonError) : Slice * option JsonError :=
  match vs with
  | [] => (s, saved)
  | j :: rest =>
      let '(s', sv) := decodeElement i j s saved in
      decodeElements (S i) rest s' sv
  end.

(** Decoding a value into the [Menu] field. *)
Definition decodeMenu (j : JSON) (s : Slice) (saved : option JsonError)
  : Slice * option JsonError :=
  match j with
  | JNull => (nilSlice, saved)
  | JArray vs =>
      let '(s1, sv) := decodeElements 0 vs s saved in
      let n := length vs in
      let s2 := if bool_decide (n < len s1)%nat then mkSlice (arr s1) n else s1 in
      let s3 := if bool_decide (n = 0%nat) then mkSlice [] 0 else s2 in
      (s3, sv)
  | _ => (s, mismatch saved j)
  end.

(** The document that spells out a menu entry, and the one that spells out
    the five tagged fields of a configuration. *)
Definition entryDocument (e : MenuEntry) : JSON :=
  JObject [("name", JString (MenuEntry_Name e)); ("note", JString (MenuEntry_Note e));
           ("repo", JString (MenuEntry_Repo e))].

Definition configDocument (name host : string) (port : Z) (showAll : bool)
    (menu : list MenuEntry) : JSON :=
  JObject [("name", JString name); ("host", JString host); ("port", JInt port);
           ("show_all_repos", JBool showAll);
           ("menu", JArray (map entryDocument menu))].

(** ** What the code takes from other packages

    [smoothie/git] and [createDefaultConfigRepo] are not part of
    [tui/bubble.go]. Their state is the type [RepoSource]; an operation that
    may change it returns the new state. An [error] is carried as its
    message. [scan] is [encoding/json]'s scanner ([None] for text that is
    not well-formed JSON), and [unmarshalRepoSource] is the decoder on the
    struct [git.RepoSource], whose declaration is elsewhere: it gives the
    struct after the members of an object, and the first error it would
    save. *)

Class Externals : Type := {
  RepoSource : Type;
  Repo : Type;
  NewRepoSource : string -> RepoSource;
  zeroRepoSource : RepoSource;
  GetRepo : RepoSource -> string -> string + Repo;
  LatestFile : Repo -> string -> string + string;
  LoadRepos : RepoSource -> RepoSource * option string;
  createDefaultConfigRepo : RepoSource -> RepoSource * option string;
  scan : string -> option JSON;
  unmarshalRepoSource :
    list (string * JSON) -> RepoSource -> RepoSource * option JsonError
}.

Section Configuration.
Context `{E : Externals}.

(** A [*git.RepoSource] held by a [Config]: nil, the repo source the
    server created, or an object the decoder allocated. *)
Inductive RepoSourcePtr : Type :=
| nilPtr
| sharedPtr
| freshPtr (v : RepoSource).

Record Config : Type := mkConfig {
  Config_Name : string;            (* `json:"name"` *)
  Config_Host : string;            (* `json:"host"` *)
  Config_Port : Z;                 (* `json:"port"` *)
  Config_ShowAllRepos : bool;      (* `json:"show_all_repos"` *)
  Config_Menu : Slice;             (* `json:"menu"` *)
  Config_RepoSource : RepoSourcePtr
}.

Inductive ConfigField : Type :=
| FName | FHost | FPort | FShowAllRepos | FMenu | FRepoSource.

(** The fields of [Config] as the decoder lists them: the tag where there
    is one, the Go name of the exported field otherwise. *)
Definition configFields : list (string * ConfigField) :=
  [("name", FName); ("host", FHost); ("port", FPort);
   ("show_all_repos", FShowAllRepos); ("menu", FMenu);
   ("RepoSource", FRepoSource)].

(** Decoding a value into the pointer field. [null] sets it to nil; for
    any other value the decoder first allocates where the pointer is nil,
    then decodes into the struct it points to, which only an object
    fits. [rs] is the state of the server's repo source. *)
Definition decodeRepoSource (j : JSON) (p : RepoSourcePtr) (rs : RepoSource)
    (saved : option JsonError) : RepoSourcePtr * RepoSource * option JsonError :=
  match j with
  | JNull => (nilPtr, rs, saved)
  | JObject ms =>
      match p with
      | nilPtr =>
          let '(v, err) := unmarshalRepoSource ms zeroRepoSource in
          (freshPtr v, rs, saveErrors saved err)
      | sharedPtr =>
          let '(rs', err) := unmarshalRepoSource ms rs in
          (sharedPtr, rs', saveErrors saved err)
      | freshPtr v0 =>
          let '(v, err) := unmarshalRepoSource ms v0 in
          (freshPtr v, rs, saveErrors saved err)
      end
  | _ =>
      let p' := match p with nilPtr => freshPtr zeroRepoSource | _ => p end in
      (p', rs, mismatch saved j)
  end.

Definition setConfigField (f : ConfigField) (j : JSON) (cfg : Config)
    (rs : RepoSource) (saved : option JsonError)
  : Config * RepoSource * option JsonError :=
  match f with
  | FName =>
      let '(s, sv) := decodeString j (Config_Name cfg) saved in
      (mkConfig s (Config_Host cfg) (Config_Port cfg) (Config_ShowAllRepos cfg)
         (Config_Menu cfg) (Config_RepoSource cfg), rs, sv)
  | FHost =>
      let '(s, sv) := decodeString j (Config_Host cfg) saved in
      (mkConfig (Config_Name cfg) s (Config_Port cfg) (Config_ShowAllRepos cfg)
         (Config_Menu cfg) (Config_RepoSource cfg), rs, sv)
  | FPort =>
      let '(n, sv) := decodeInt64 j (Config_Port cfg) saved in
      (mkConfig (Config_Name cfg) (Config_Host cfg) n (Config_ShowAllRepos cfg)
         (Config_Menu cfg) (Config_RepoSource cfg), rs, sv)
  | FShowAllRepos =>
      let '(b, sv) := decodeBool j (Config_ShowAllRepos cfg) saved in
      (mkConfig (Config_Name cfg) (Config_Host cfg) (Config_Port cfg) b
         (Config_Menu cfg) (Config_RepoSource cfg), rs, sv)
  | FMenu =>
      let '(m, sv) := decodeMenu j (Config_Menu cfg) saved in
      (mkConfig (Config_Name cfg) (Config_Host cfg) (Config_Port cfg)
         (Config_ShowAllRepos cfg) m (Config_RepoSource cfg), rs, sv)
  | FRepoSource =>
      let '(p, rs', sv) := decodeRepoSource j (Config_RepoSource cfg) rs saved in
      (mkConfig (Config_Name cfg) (Config_Host cfg) (Config_Port cfg)
         (Config_ShowAllRepos cfg) (Config_Menu cfg) p, rs', sv)
  end.

(** Whether a value has the kind its field takes. What is inside a menu
    or a repo source is decoded further. *)
Definition fits (f : ConfigField) (j : JSON) : bool :=
  match j with
  | JNull => true
  | JString _ => match f with FName | FHost => true | _ => false end
  | JInt n => match f with
              | FPort => bool_decide (int_min <= n <= int_max)
              | _ => false
              end
  | JBool _ => match f with FShowAllRepos => true | _ => false end
  | JArray _ => match f with FMenu => true | _ => false end
  | JObject _ => match f with FRepoSource => true | _ => false end
  | JFloat _ => false
  end.

(** A member whose key names the field [RepoSource]. *)
Definition namesRepoSource (m : string * JSON) : Prop :=
  findField configFields m.1 = Some FRepoSource.

(** The members of the document decoded, in order, into the [Config]. *)
Fixpoint decodeConfigMembers (ms : list (string * JSON)) (cfg : Config)
    (rs : RepoSource) (saved : option JsonError)
  : Config * RepoSource * option JsonError :=
  match ms with
  | [] => (cfg, rs, saved)
  | (key, j) :: rest =>
      match findField configFields key with
      | Some f =>
          let '(cfg', rs', sv) := setConfigField f j cfg rs saved in
          decodeConfigMembers rest cfg' rs' sv
      | None => decodeConfigMembers rest cfg rs saved
      end
  end.

Definition decodeConfig (j : JSON) (cfg : Config) (rs : RepoSource)
  : Config * RepoSource * option JsonError :=
  match j with
  | JObject ms => decodeConfigMembers ms cfg rs None
  | _ => (cfg, rs, mismatch None j)
  end.

(** [json.Unmarshal(data, cfg)]: the text is checked first, so that a
    syntax error leaves [cfg] as it was; then the value is decoded and the
    first saved error returned. *)
Definition Unmarshal (data : string) (cfg : Config) (rs : RepoSource)
  : Config * RepoSource * option JsonError :=
  match scan data with
  | None => (cfg, rs, Some SyntaxError)
  | Some j => decodeConfig j cfg rs
  end.

(** The errors [loadConfig] builds with [fmt.Errorf]. *)
Inductive LoadError : Type :=
| CannotLoadConfigRepo (err : string)   (* "cannot load config repo: %s" *)
| CannotLoadConfigJson (err : string)   (* "cannot load config.json: %s" *)
| BadJson (err : JsonError).            (* "bad json in config.json: %s" *)

(** The end of [loadConfig], once [json.Unmarshal] has returned. *)
Definition afterUnmarshal (r : Config * RepoSource * option JsonError)
  : RepoSource * (LoadError + Config) :=
  let '(cfg', rs', err) := r in
  match err with
  | Some e => (rs', inl (BadJson e))
  | None => (rs', inr cfg')
  end.

(** [cfg := &Config{}; cfg.RepoSource = rs] *)
Definition newConfig : Config := mkConfig "" "" 0 false nilSlice sharedPtr.

Definition loadConfig (rs : RepoSource) : RepoSource * (LoadError + Config) :=
  match GetRepo rs "config" with
  | inl err => (rs, inl (CannotLoadConfigRepo err))
  | inr cr =>
      match LatestFile cr "config.json" with
      | inl err => (rs, inl (CannotLoadConfigJson err))
      | inr cs => afterUnmarshal (Unmarshal cs newConfig rs)
      end
  end.
End Configuration.

(** ** Messages and commands

    A [tea.Msg] is whatever the run time delivers; the constructors are the
    cases [Update] tells apart, and [otherMsg] is any other message. A
    [tea.KeyMsg] is carried as the name its [String] method gives, an
    [errMsg] as the text of its [Error] method. *)

Inductive Msg : Type :=
| KeyMsg (key : string)
| errMsg (err : string)
| windowMsg
| WindowSizeMsg (Width Height : Z)
| SelectedMsg (Index : Z)
| ActiveMsg (Index : Z)
| otherMsg (tag : string).

(** A [tea.Cmd] is a function run later by the run time; it is kept as the
    name of what was scheduled. [panelCmd] is a command of a panel's own. *)
Inductive Cmd : Type :=
| Quit
| windowChangesCmd
| setupCmd
| getRepoCmd (repo : string)
| panelCmd (tag : string)
| Batch (cmds : list Cmd).

(** [tea.Batch(cmds...)] is nil when there is nothing to run. *)
Definition tea_Batch (cmds : list Cmd) : option Cmd :=
  match cmds with
  | [] => None
  | _ => Some (Batch cmds)
  end.

(** Whether running a command ends the program. *)
Fixpoint quits (c : Cmd) : bool :=
  match c with
  | Quit => true
  | Batch cmds => existsb quits cmds
  | _ => false
  end.

(** The [tea.Model] in a box: the selection list and the commits log are
    other packages. *)
Class Panel : Type := {
  Box : Type;
  box_Update : Box -> Msg -> Box * option Cmd;
  box_View : Box -> string
}.

(** The layout constants of the package, declared in another file. *)
Class Layout : Type := {
  boxLeftWidth : Z;
  boxRightWidth : Z;
  horizontalPadding : Z
}.

(** ** Rendering

    lipgloss is a library: a rendered string is kept as the expression that
    builds it. *)

Inductive StyleName : Type :=
| activeBoxStyle | inactiveBoxStyle | headerStyle | footerStyle
| errorStyle | normalStyle | appBoxStyle.

Record Style : Type := mkStyle {
  style_name : StyleName;
  style_width : option Z
}.

Definition plain (n : StyleName) : Style := mkStyle n None.
(** [s.Width(w)] *)
Definition Width (n : StyleName) (w : Z) : Style := mkStyle n (Some w).

Inductive Position : Type := Top.

Inductive Doc : Type :=
| Text (s : string)
| Render (ls : Style) (d : Doc)
| JoinHorizontal (pos : Position) (ds : list Doc)
| Cat (a b : Doc).

Definition newline : string := String (ascii_of_nat 10) EmptyString.

(** ** The bubble *)

Inductive sessionState : Type :=
| startState | errorState | loadedState | quittingState | quitState.

Global Instance sessionState_eq_dec : EqDecision sessionState.
Proof. solve_decision. Defined.

Definition sessionState_int (s : sessionState) : Z :=
  match s with
  | startState => 0
  | errorState => 1
  | loadedState => 2
  | quittingState => 3
  | quitState => 4
  end.

(** [fmt.Sprintf("%d", s)] on the five values. *)
Definition sessionState_decimal (s : sessionState) : string :=
  match s with
  | startState => "0"
  | errorState => "1"
  | loadedState => "2"
  | quittingState => "3"
  | quitState => "4"
  end.

Record SessionConfig : Type := mkSessionConfig {
  SessionConfig_Width : Z;
  SessionConfig_Height : Z
}.

(** The keys of the first case of the key switch: ["q", "ctrl+c"]. *)
Definition isQuitKey (key : string) : bool :=
  String.eqb key "q" || String.eqb key "ctrl+c".

Section Bubble.
Context `{E : Externals} `{P : Panel} `{L : Layout}.

(** The fields of [Bubble] that this file reads or writes. [config] is a
    pointer and may be nil; an entry of [boxes] is a nil interface until a
    panel is stored in it. *)
Record Bubble : Type := mkBubble {
  config : option Config;
  state : sessionState;
  error : string;
  width : Z;
  height : Z;
  repoSource : RepoSourcePtr;
  repoMenu : list MenuEntry;
  boxes : list (option Box);
  activeBox : Z
}.

Definition set_state (s : sessionState) (b : Bubble) : Bubble :=
  mkBubble (config b) s (error b) (width b) (height b) (repoSource b)
    (repoMenu b) (boxes b) (activeBox b).
Definition set_error (e : string) (b : Bubble) : Bubble :=
  mkBubble (config b) (state b) e (width b) (height b) (repoSource b)
    (repoMenu b) (boxes b) (activeBox b).
Definition set_width (w : Z) (b : Bubble) : Bubble :=
  mkBubble (config b) (state b) (error b) w (height b) (repoSource b)
    (repoMenu b) (boxes b) (activeBox b).
Definition set_height (h : Z) (b : Bubble) : Bubble :=
  mkBubble (config b) (state b) (error b) (width b) h (repoSource b)
    (repoMenu b) (boxes b) (activeBox b).
Definition set_boxes (bs : list (option Box)) (b : Bubble) : Bubble :=
  mkBubble (config b) (state b) (error b) (width b) (height b) (repoSource b)
    (repoMenu b) bs (activeBox b).
Definition set_activeBox (a : Z) (b : Bubble) : Bubble :=
  mkBubble (config b) (state b) (error b) (width b) (height b) (repoSource b)
    (repoMenu b) (boxes b) a.

(** [cfg.RepoSource] dereferences [cfg]. *)
Definition NewBubble (cfg : option Config) (sCfg : SessionConfig) : option Bubble :=
  c ← cfg;
  Some (mkBubble cfg startState "" (SessionConfig_Width sCfg)
          (SessionConfig_Height sCfg) (Config_RepoSource c) []
          [None; None] 0).

Definition Init (b : Bubble) : option Cmd :=
  tea_Batch [windowChangesCmd; setupCmd].

(** [b.boxes[i]] used as a model: the index must be in range and the
    interface not nil. *)
Definition boxAt (b : Bubble) (i : Z) : option Box :=
  index (boxes b) i ≫= id.

(** [if cmd != nil { cmds = append(cmds, cmd) }] *)
Definition appendCmd (cmds : list Cmd) (cmd : option Cmd) : list Cmd :=
  match cmd with
  | Some c => (cmds ++ [c])%list
  | None => cmds
  end.

(** The tail of [Update], after the switch: in [loadedState] the message
    goes to the active box, which is stored back, and whose command is
    added when it is not nil. *)
Definition delegate (b : Bubble) (msg : Msg) (cmds : list Cmd)
  : option (Bubble * option Cmd) :=
  if decide (state b = loadedState) then
    box ← boxAt b (activeBox b);
    let '(ab, cmd) := box_Update box msg in
    let b' := set_boxes (<[Z.to_nat (activeBox b) := Some ab]> (boxes b)) b in
    Some (b', tea_Batch (appendCmd cmds cmd))
  else Some (b, tea_Batch cmds).

Definition Update (b : Bubble) (msg : Msg) : option (Bubble * option Cmd) :=
  match msg with
  | KeyMsg key =>
      if isQuitKey key then Some (b, Some Quit)
      else if String.eqb key "tab" then
        delegate (set_activeBox (int_rem (int_add (activeBox b) 1) 2) b) msg []
      else delegate b msg []
  | errMsg err => Some (set_state errorState (set_error err b), None)
  | windowMsg => delegate b msg [windowChangesCmd]
  | WindowSizeMsg w h => delegate (set_height h (set_width w b)) msg []
  | SelectedMsg i =>
      let b1 := set_activeBox 1 b in
      e ← index (repoMenu b1) i;
      delegate b1 msg [getRepoCmd (MenuEntry_Repo e)]
  | ActiveMsg i =>
      e ← index (repoMenu b) i;
      delegate b msg [getRepoCmd (MenuEntry_Repo e)]
  | otherMsg _ => delegate b msg []
  end.

(** The style of box [i]: the active one is emphasised. *)
Definition boxStyle (b : Bubble) (i : Z) : StyleName :=
  if bool_decide (i = activeBox b) then activeBoxStyle else inactiveBoxStyle.

Definition viewForBox (b : Bubble) (i : Z) (w : Z) : option Doc :=
  let ls := if bool_decide (i = activeBox b) then Width activeBoxStyle w
            else Width inactiveBoxStyle w in
  box ← boxAt b i;
  Some (Render ls (Text (box_View box))).

Definition View (b : Bubble) : option Doc :=
  cfg ← config b;
  let h := Render (Width headerStyle (int_sub (width b) horizontalPadding))
             (Text (Config_Name cfg)) in
  let f := Render (plain footerStyle) (Text "") in
  s ← match state b with
      | loadedState =>
          lb ← viewForBox b 0 boxLeftWidth;
          rb ← viewForBox b 1 boxRightWidth;
          Some (JoinHorizontal Top [lb; rb])
      | errorState => Some (Render (plain errorStyle) (Text ("Bummer: " ++ error b)))
      | _ => Some (Render (plain normalStyle)
                     (Text ("Doing something weird " ++ sessionState_decimal (state b))))
      end;
  Some (Render (plain appBoxStyle)
          (Cat h (Cat (Text (newline ++ newline)) (Cat s (Cat (Text newline) f))))).

(** The event loop of one session: the messages in their order of
    arrival, each [Update] finished before the next; the commands come
    out in the order they were returned. *)
Fixpoint run (b : Bubble) (msgs : list Msg) : option (Bubble * list Cmd) :=
  match msgs with
  | [] => Some (b, [])
  | m :: rest =>
      '(b1, c) ← Update b m;
      '(b2, cs) ← run b1 rest;
      Some (b2, match c with Some c' => c' :: cs | None => cs end)
  end.
End Bubble.

(** ** Start-up, the polling goroutine and the session handler *)

Record Window : Type := mkWindow {
  Window_Width : Z;
  Window_Height : Z
}.

(** What the handler asks of an [ssh.Session]: [Command()] and [Pty()]. *)
Record Session : Type := mkSession {
  Session_Command : list string;
  Session_Pty : Window;
  Session_active : bool
}.

Inductive ProgramOption : Type := WithAltScreen.

Section Server.
Context `{E : Externals} `{P : Panel} `{L : Layout}.

(** The lines written with the [log] package. *)
Inductive LogEntry : Type :=
| CannotCreateConfigRepo (err : string)   (* log.Fatalf *)
| CannotLoadConfig (err : LoadError)      (* log.Printf *)
| CannotLoadRepos (err : string).         (* log.Printf *)

(** What the closures of [SessionHandler] share: the repo source, the
    variable [appCfg] (a pointer, nil until a load succeeds) and the log. *)
Record Server : Type := mkServer {
  server_rs : RepoSource;
  appCfg : option Config;
  logged : list LogEntry
}.

(** [log.Fatalf] ends the process: no handler is returned. *)
Inductive Startup : Type :=
| Exited (lines : list LogEntry)
| Serving (s : Server).

(** [SessionHandler] up to the start of the goroutine. *)
Definition SessionHandler (reposPath : string) : Startup :=
  let rs := NewRepoSource reposPath in
  let '(rs1, err) := createDefaultConfigRepo rs in
  match err with
  | Some e => Exited [CannotCreateConfigRepo e]
  | None =>
      let '(rs2, r) := loadConfig rs1 in
      match r with
      | inl e => Serving (mkServer rs2 None [CannotLoadConfig e])
      | inr cfg => Serving (mkServer rs2 (Some cfg) [])
      end
  end.

(** One round of the goroutine's loop, after the sleep. *)
Definition poll (s : Server) : Server :=
  let '(rs1, err) := LoadRepos (server_rs s) in
  match err with
  | Some e => mkServer rs1 (appCfg s) (logged s ++ [CannotLoadRepos e])
  | None =>
      let '(rs2, r) := loadConfig rs1 in
      match r with
      | inl e => mkServer rs2 (appCfg s) (logged s ++ [CannotLoadConfig e])
      | inr cfg => mkServer rs2 (Some cfg) (logged s)
      end
  end.

(** The handler returned by [SessionHandler], on a new session. The outer
    [None] is a panic, the inner one the result [(nil, nil)]. *)
Definition handler (s : Server) (sess : Session)
  : option (option (Bubble * list ProgramOption)) :=
  match Session_Command sess with
  | [] =>
      if Session_active sess then
        let cfg := mkSessionConfig (Window_Width (Session_Pty sess))
                     (Window_Height (Session_Pty sess)) in
        b ← NewBubble (appCfg s) cfg;
        Some (Some (b, [WithAltScreen]))
      else Some None
  | _ :: _ => Some None
  end.
End Server.

(** ** Reading a rendered view *)

(** The width of the style applied at the head of a rendered part. *)
Definition docWidth (d : Doc) : option Z :=
  match d with
  | Render ls _ => style_width ls
  | _ => None
  end.

(** The header of a view: the first part inside the application box. *)
Definition headerWidth (d : Doc) : option Z :=
  match d with
  | Render _ (Cat h _) => docWidth h
  | _ => None
  end.

(** The two boxes of a loaded view, left and right. *)
Definition viewBoxes (d : Doc) : option (Doc * Doc) :=
  match d with
  | Render _ (Cat _ (Cat _ (Cat (JoinHorizontal _ [lb; rb]) _))) => Some (lb, rb)
  | _ => None
  end.

Definition boxWidths (d : Doc) : option (Z * Z) :=
  '(lb, rb) ← viewBoxes d;
  l ← docWidth lb;
  r ← docWidth rb;
  Some (l, r).

(** ** Predicates on bubbles and messages *)

Definition isResize (m : Msg) : bool :=
  match m with
  | WindowSizeMsg _ _ => true
  | _ => false
  end.

(** The dimensions of the last resize in a sequence of messages. *)
Fixpoint lastResize (msgs : list Msg) : option (Z * Z) :=
  match msgs with
  | [] => None
  | m :: rest =>
      match lastResize rest with
      | Some d => Some d
      | None => match m with
                | WindowSizeMsg w h => Some (w, h)
                | _ => None
                end
      end
  end.

Section Predicates.
Context `{E : Externals} `{P : Panel} `{L : Layout}.

Definition focus_valid (b : Bubble) : Prop := 0 <= activeBox b < 2.

(** Both boxes hold a panel once the bubble is loaded. *)
Definition boxes_ready (b : Bubble) : Prop :=
  state b = loadedState -> exists b0 b1, boxes b = [Some b0; Some b1].

Definition wf (b : Bubble) : Prop := focus_valid b /\ boxes_ready b.

Definition closed (b : Bubble) : Prop :=
  state b = quittingState \/ state b = quitState.

(** A selection or activation message is admissible when its index is
    one of the menu. *)
Definition admissible (b : Bubble) (m : Msg) : Prop :=
  match m with
  | SelectedMsg i | ActiveMsg i => 0 <= i < Z.of_nat (length (repoMenu b))
  | _ => True
  end.

(** The bubbles a session can be in after some messages. *)
Inductive reachable (b0 : Bubble) : Bubble -> Prop :=
| reachable_start : reachable b0 b0
| reachable_step b msg b' c :
    reachable b0 b -> Update b msg = Some (b', c) -> reachable b0 b'.

(** No panel asks the program to quit. *)
Definition panels_never_quit : Prop :=
  forall (box : Box) (msg : Msg) (c : Cmd),
    (box_Update box msg).2 = Some c -> quits c = false.
End Predicates.

(** ** More readings of messages, views and commands *)

Definition isError (m : Msg) : bool :=
  match m with
  | errMsg _ => true
  | _ => false
  end.

(** The text of the last error in a sequence of messages. *)
Fixpoint lastError (msgs : list Msg) : option string :=
  match msgs with
  | [] => None
  | m :: rest =>
      match lastError rest with
      | Some e => Some e
      | None => match m with
                | errMsg e => Some e
                | _ => None
                end
      end
  end.

(** The name of the style applied at the head of a rendered part. *)
Definition docStyle (d : Doc) : option StyleName :=
  match d with
  | Render ls _ => Some (style_name ls)
  | _ => None
  end.

(** The body of a view: what stands between the header and the footer. *)
Definition viewBody (d : Doc) : option Doc :=
  match d with
  | Render _ (Cat _ (Cat _ (Cat s _))) => Some s
  | _ => None
  end.

(** The commands [Update] returns when no panel adds one of its own:
    [tea.Quit], the batch that waits for the next window change, and the
    batch that loads the repo of an entry of the menu. *)
Definition controllerCmd (menu : list MenuEntry) (c : Cmd) : Prop :=
  c = Quit \/ c = Batch [windowChangesCmd] \/
  exists e, e ∈ menu /\ c = Batch [getRepoCmd (MenuEntry_Repo e)].

(** The focus-cycle key, as a message. *)
Definition tabKey : Msg := KeyMsg "tab".

(** ** A small world to run the code in

    A repo source is a list of named repos, each a list of named files, and
    a mark that says whether it can be read. The scanner knows the few
    documents below. A panel records the messages it is given. *)

Definition quote : string := String (ascii_of_nat 34) EmptyString.

Definition demoDocument : JSON :=
  JObject [("name", JString "Demo"); ("host", JString "0.0.0.0"); ("port", JInt 23);
           ("menu", JArray [JObject [("name", JString "repo1"); ("note", JString "");
                                     ("repo", JString "repo1")]])].

Definition demoText : string :=
  "{" ++ quote ++ "name" ++ quote ++ ":" ++ quote ++ "Demo" ++ quote ++ ","
  ++ quote ++ "host" ++ quote ++ ":" ++ quote ++ "0.0.0.0" ++ quote ++ ","
  ++ quote ++ "port" ++ quote ++ ":23,"
  ++ quote ++ "menu" ++ quote ++ ":[{" ++ quote ++ "name" ++ quote ++ ":"
  ++ quote ++ "repo1" ++ quote ++ "," ++ quote ++ "note" ++ quote ++ ":"
  ++ quote ++ quote ++ "," ++ quote ++ "repo" ++ quote ++ ":"
  ++ quote ++ "repo1" ++ quote ++ "}]}".

Definition showAllText : string :=
  "{" ++ quote ++ "show_all" ++ quote ++ ":true}".

Definition fullDocument : JSON :=
  configDocument "Demo" "0.0.0.0" 23 true [mkMenuEntry "repo1" "" "repo1"].

Definition fullText : string :=
  "{" ++ quote ++ "name" ++ quote ++ ":" ++ quote ++ "Demo" ++ quote ++ ","
  ++ quote ++ "host" ++ quote ++ ":" ++ quote ++ "0.0.0.0" ++ quote ++ ","
  ++ quote ++ "port" ++ quote ++ ":23,"
  ++ quote ++ "show_all_repos" ++ quote ++ ":true,"
  ++ quote ++ "menu" ++ quote ++ ":[{" ++ quote ++ "name" ++ quote ++ ":"
  ++ quote ++ "repo1" ++ quote ++ "," ++ quote ++ "note" ++ quote ++ ":"
  ++ quote ++ quote ++ "," ++ quote ++ "repo" ++ quote ++ ":"
  ++ quote ++ "repo1" ++ quote ++ "}]}".

Definition showAllDocument : JSON := JObject [("show_all", JBool true)].

Definition demoScan (data : string) : option JSON :=
  if String.eqb data demoText then Some demoDocument
  else if String.eqb data fullText then Some fullDocument
  else if String.eqb data showAllText then Some showAllDocument
  else if String.eqb data "{}" then Some (JObject [])
  else None.

Record DemoSource : Type := mkDemoSource {
  demo_repos : list (string * list (string * string));
  demo_readable : bool
}.

Fixpoint assoc {A : Type} (l : list (string * A)) (k : string) : option A :=
  match l with
  | [] => None
  | (k', v) :: rest => if String.eqb k' k then Some v else assoc rest k
  end.

Definition demoConfigRepo (text : string) : string * list (string * string) :=
  ("config", [("config.json", text)]).

Definition demoNewRepoSource (path : string) : DemoSource :=
  if String.eqb path "demo" then mkDemoSource [demoConfigRepo demoText] true
  else if String.eqb path "full" then mkDemoSource [demoConfigRepo fullText] true
  else if String.eqb path "show_all" then mkDemoSource [demoConfigRepo showAllText] true
  else if String.eqb path "malformed" then mkDemoSource [demoConfigRepo "{"] true
  else if String.eqb path "unreadable" then mkDemoSource [demoConfigRepo demoText] false
  else mkDemoSource [] true.

Definition demoGetRepo (rs : DemoSource) (name : string)
  : string + list (string * string) :=
  match assoc (demo_repos rs) name with
  | Some r => inr r
  | None => inl "repo not found"
  end.

Definition demoLatestFile (r : list (string * string)) (path : string)
  : string + string :=
  match assoc r path with
  | Some text => inr text
  | None => inl "file not found"
  end.

Definition demoLoadRepos (rs : DemoSource) : DemoSource * option string :=
  if demo_readable rs then (rs, None) else (rs, Some "cannot read the repos").

Definition demoCreateDefaultConfigRepo (rs : DemoSource) : DemoSource * option string :=
  match assoc (demo_repos rs) "config" with
  | Some _ => (rs, None)
  | None => (mkDemoSource (demoConfigRepo "{}" :: demo_repos rs) (demo_readable rs), None)
  end.

Definition demoExternals : Externals := {|
  RepoSource := DemoSource;
  Repo := list (string * string);
  NewRepoSource := demoNewRepoSource;
  zeroRepoSource := mkDemoSource [] true;
  GetRepo := demoGetRepo;
  LatestFile := demoLatestFile;
  LoadRepos := demoLoadRepos;
  createDefaultConfigRepo := demoCreateDefaultConfigRepo;
  scan := demoScan;
  unmarshalRepoSource := fun _ rs => (rs, None)
|}.

Definition demoPanel : Panel := {|
  Box := list Msg;
  box_Update := fun box msg => ((box ++ [msg])%list, None);
  box_View := fun _ => ""
|}.

Definition demoLayout : Layout := {|
  boxLeftWidth := 25;
  boxRightWidth := 80;
  horizontalPadding := 2
|}.

Definition demoConfig : @Config demoExternals :=
  mkConfig "Demo" "0.0.0.0" 23 false
    (mkSlice [mkMenuEntry "repo1" "" "repo1"; zeroMenuEntry; zeroMenuEntry; zeroMenuEntry] 1)
    sharedPtr.

(** A panel that has been given the messages [l]. *)
Definition received (l : list Msg) : @Box demoPanel := l.

(** A bubble right after [NewBubble], and the same once loaded with its two
    panels and the menu of the configuration. *)
Definition demoStart : @Bubble demoExternals demoPanel :=
  mkBubble (Some demoConfig) startState "" 80 24 sharedPtr [] [None; None] 0.

Definition demoLoaded (w : Z) : @Bubble demoExternals demoPanel :=
  mkBubble (Some demoConfig) loadedState "" w 24 sharedPtr
    [mkMenuEntry "repo1" "" "repo1"] [Some (received []); Some (received [])] 0.

Definition demoSession : Session := mkSession [] (mkWindow 80 24) true.

(** * Properties *)

(** ** Integers and indexing *)

Lemma focus_cycle (a : Z) : 0 <= a < 2 -> int_rem (int_add a 1) 2 = (a + 1) mod 2.
Proof.
  intros Ha. assert (a = 0 \/ a = 1) as [-> | ->] by lia; vm_compute; reflexivity.
Qed.

Lemma index_Some {A : Type} (l : list A) (i : Z) :
  0 <= i < Z.of_nat (length l) -> exists x, index l i = Some x.
Proof.
  intros Hi. unfold index. rewrite bool_decide_eq_true_2 by exact Hi.
  apply lookup_lt_is_Some_2. lia.
Qed.

Lemma index_None {A : Type} (l : list A) (i : Z) :
  ~ (0 <= i < Z.of_nat (length l)) -> index l i = None.
Proof.
  intros Hi. unfold index. rewrite bool_decide_eq_false_2 by exact Hi. reflexivity.
Qed.

(** ** One step of the bubble *)

Section Steps.
Context `{E : Externals} `{P : Panel} `{L : Layout}.
Implicit Types (b : Bubble) (msg : Msg) (cmds : list Cmd).

Lemma delegate_not_loaded b msg cmds :
  state b <> loadedState -> delegate b msg cmds = Some (b, tea_Batch cmds).
Proof.
  intros Hs. unfold delegate. destruct (decide _); [contradiction | reflexivity].
Qed.

Lemma delegate_loaded b msg cmds box :
  state b = loadedState -> boxAt b (activeBox b) = Some box ->
  delegate b msg cmds =
    Some (set_boxes (<[Z.to_nat (activeBox b) := Some (box_Update box msg).1]> (boxes b)) b,
          tea_Batch (appendCmd cmds (box_Update box msg).2)).
Proof.
  intros Hs Hb. unfold delegate. destruct (decide _); [| contradiction].
  rewrite Hb. simpl. destruct (box_Update box msg). reflexivity.
Qed.

(** What [delegate] leaves alone. *)
Lemma delegate_frame b msg cmds b' c :
  delegate b msg cmds = Some (b', c) ->
  config b' = config b /\ state b' = state b /\ error b' = error b /\
  width b' = width b /\ height b' = height b /\ repoMenu b' = repoMenu b /\
  activeBox b' = activeBox b /\ length (boxes b') = length (boxes b).
Proof.
  unfold delegate. destruct (decide _).
  - destruct (boxAt b (activeBox b)) as [box |]; simpl; [| discriminate].
    destruct (box_Update box msg) as [ab cmd]. intros [= <- <-]. simpl.
    rewrite length_insert. repeat split.
  - intros [= <- <-]. repeat split.
Qed.

Lemma boxAt_ready b (i : Z) :
  boxes_ready b -> state b = loadedState -> 0 <= i < 2 -> exists box, boxAt b i = Some box.
Proof.
  intros Hr Hs Hi. destruct (Hr Hs) as (b0 & b1 & Hb).
  unfold boxAt, index. rewrite Hb. simpl.
  assert (i = 0 \/ i = 1) as [-> | ->] by lia; simpl; eauto.
Qed.

Lemma delegate_total b msg cmds :
  wf b -> exists b' c, delegate b msg cmds = Some (b', c).
Proof.
  intros [Hf Hr]. destruct (decide (state b = loadedState)) as [Hs | Hs].
  - destruct (boxAt_ready b (activeBox b) Hr Hs Hf) as [box Hbox].
    rewrite (delegate_loaded _ _ _ _ Hs Hbox). eauto.
  - rewrite (delegate_not_loaded _ _ _ Hs). eauto.
Qed.

Lemma delegate_wf b msg cmds b' c :
  wf b -> delegate b msg cmds = Some (b', c) -> wf b'.
Proof.
  intros [Hf Hr] Hd. pose proof (delegate_frame _ _ _ _ _ Hd) as Hfr.
  destruct Hfr as (_ & Hst & _ & _ & _ & _ & Hab & _).
  split; [unfold focus_valid in *; lia |].
  intros Hs'. rewrite Hst in Hs'. destruct (Hr Hs') as (b0 & b1 & Hb).
  destruct (boxAt_ready b (activeBox b) Hr Hs' Hf) as [box Hbox].
  rewrite (delegate_loaded _ _ _ _ Hs' Hbox) in Hd. injection Hd as <- _.
  simpl. rewrite Hb. unfold focus_valid in Hf.
  assert (activeBox b = 0 \/ activeBox b = 1) as [-> | ->] by lia; simpl; eauto.
Qed.
End Steps.

Section UpdateFacts.
Context `{E : Externals} `{P : Panel} `{L : Layout}.
Implicit Types (b : Bubble) (msg : Msg) (cmds : list Cmd).

(** Splits a successful [Update] along the cases of its switch; the
    cases that end in [delegate] are left with that call as hypothesis. *)
Ltac update_cases b msg H :=
  unfold Update in H;
  destruct msg as [key | err | | w h | i | i | tag];
  [ destruct (isQuitKey key) eqn:Hquit;
    [| destruct (String.eqb key "tab") eqn:Htab]
  | | | |
    destruct (index (repoMenu (set_activeBox 1 b)) i) as [entry |] eqn:Hentry;
    simpl in H
  | destruct (index (repoMenu b) i) as [entry |] eqn:Hentry; simpl in H
  | ];
  try discriminate H.

Lemma Update_frame b msg b' c :
  Update b msg = Some (b', c) ->
  config b' = config b /\ repoMenu b' = repoMenu b /\
  length (boxes b') = length (boxes b).
Proof.
  intros H. update_cases b msg H;
    try (apply delegate_frame in H; simpl in H; tauto);
    injection H as <- <-; simpl; tauto.
Qed.

Lemma Update_state b msg b' c :
  Update b msg = Some (b', c) ->
  state b' = state b \/ (exists err, msg = errMsg err /\ state b' = errorState).
Proof.
  intros H. update_cases b msg H;
    try (apply delegate_frame in H; simpl in H; left; tauto).
  - injection H as <- <-. now left.
  - injection H as <- <-. right. eauto.
Qed.

Lemma Update_geometry b msg b' c :
  Update b msg = Some (b', c) ->
  match msg with
  | WindowSizeMsg w h => width b' = w /\ height b' = h
  | _ => width b' = width b /\ height b' = height b
  end.
Proof.
  intros H. update_cases b msg H;
    try (apply delegate_frame in H; simpl in H; tauto);
    injection H as <- <-; simpl; tauto.
Qed.

Lemma Update_focus b msg b' c :
  Update b msg = Some (b', c) ->
  activeBox b' =
    match msg with
    | KeyMsg key =>
        if isQuitKey key then activeBox b
        else if String.eqb key "tab" then int_rem (int_add (activeBox b) 1) 2
        else activeBox b
    | SelectedMsg _ => 1
    | _ => activeBox b
    end.
Proof.
  intros H. update_cases b msg H;
    try (apply delegate_frame in H; simpl in H; tauto);
    injection H as <- <-; simpl; tauto.
Qed.

Lemma Update_wf b msg b' c : wf b -> Update b msg = Some (b', c) -> wf b'.
Proof.
  intros Hwf H. pose proof Hwf as [Hf Hr].
  update_cases b msg H.
  - injection H as <- <-. exact Hwf.
  - eapply delegate_wf; [| exact H]. split.
    + unfold focus_valid. simpl. rewrite focus_cycle by exact Hf.
      apply Z.mod_pos_bound. lia.
    + exact Hr.
  - eapply delegate_wf; eauto.
  - injection H as <- <-. split; [exact Hf |]. intros Hs. discriminate Hs.
  - eapply delegate_wf; eauto.
  - eapply delegate_wf; [| exact H]. split; [exact Hf | exact Hr].
  - eapply delegate_wf; [| exact H]. split; [unfold focus_valid; simpl; lia | exact Hr].
  - eapply delegate_wf; eauto.
  - eapply delegate_wf; eauto.
Qed.

Lemma Update_total b msg :
  wf b -> admissible b msg -> exists b' c, Update b msg = Some (b', c).
Proof.
  intros Hwf Ha. pose proof Hwf as [Hf Hr]. unfold Update.
  destruct msg as [key | err | | w h | i | i | tag]; simpl in Ha.
  - destruct (isQuitKey key); [eauto |].
    destruct (String.eqb key "tab"); [| now apply delegate_total].
    apply delegate_total. split; [| exact Hr].
    unfold focus_valid. simpl. rewrite focus_cycle by exact Hf.
    apply Z.mod_pos_bound. lia.
  - eauto.
  - now apply delegate_total.
  - apply delegate_total. split; [exact Hf | exact Hr].
  - destruct (index_Some (repoMenu b) i Ha) as [e He]. simpl. rewrite He. simpl.
    apply delegate_total. split; [unfold focus_valid; simpl; lia | exact Hr].
  - destruct (index_Some (repoMenu b) i Ha) as [e He]. rewrite He. simpl.
    now apply delegate_total.
  - now apply delegate_total.
Qed.

(** *** Sequences of messages *)

Lemma run_cons b m rest b2 cs :
  run b (m :: rest) = Some (b2, cs) ->
  exists b1 c cs', Update b m = Some (b1, c) /\ run b1 rest = Some (b2, cs') /\
                   cs = match c with Some c' => c' :: cs' | None => cs' end.
Proof.
  simpl. destruct (Update b m) as [[b1 c] |] eqn:Hu; simpl; [| discriminate].
  destruct (run b1 rest) as [[b2' cs'] |] eqn:Hr; simpl; [| discriminate].
  intros [= <- <-]. exists b1, c, cs'. repeat split; assumption || reflexivity.
Qed.

Lemma run_frame msgs : forall b b' cs,
  run b msgs = Some (b', cs) ->
  config b' = config b /\ repoMenu b' = repoMenu b.
Proof.
  induction msgs as [| m rest IH]; intros b b' cs H.
  - injection H as <- _. tauto.
  - apply run_cons in H as (b1 & c & cs' & Hu & Hr & _).
    apply Update_frame in Hu as (Hc & Hm & _).
    apply IH in Hr as [Hc' Hm']. split; congruence.
Qed.

Lemma run_wf msgs : forall b b' cs, wf b -> run b msgs = Some (b', cs) -> wf b'.
Proof.
  induction msgs as [| m rest IH]; intros b b' cs Hwf H.
  - injection H as <- _. exact Hwf.
  - apply run_cons in H as (b1 & c & cs' & Hu & Hr & _).
    eapply IH; [| exact Hr]. eapply Update_wf; eauto.
Qed.

Lemma run_total msgs : forall b,
  wf b -> Forall (admissible b) msgs -> exists b' cs, run b msgs = Some (b', cs).
Proof.
  induction msgs as [| m rest IH]; intros b Hwf Hall.
  - simpl. eauto.
  - inversion Hall as [| ? ? Hm Hrest]; subst.
    destruct (Update_total b m Hwf Hm) as (b1 & c & Hu).
    assert (Hall1 : Forall (admissible b1) rest).
    { apply Update_frame in Hu as (_ & Hmenu & _).
      eapply Forall_impl; [exact Hrest |]. intros m' Hm'.
      unfold admissible in *. rewrite Hmenu. exact Hm'. }
    destruct (IH b1 (Update_wf _ _ _ _ Hwf Hu) Hall1) as (b2 & cs & Hr).
    simpl. rewrite Hu. simpl. rewrite Hr. simpl. eauto.
Qed.

Lemma run_geometry msgs : forall b b' cs,
  run b msgs = Some (b', cs) ->
  match lastResize msgs with
  | Some (w, h) => width b' = w /\ height b' = h
  | None => width b' = width b /\ height b' = height b
  end.
Proof.
  induction msgs as [| m rest IH]; intros b b' cs H.
  - injection H as <- _. simpl. tauto.
  - apply run_cons in H as (b1 & c & cs' & Hu & Hr & _).
    apply IH in Hr. apply Update_geometry in Hu. simpl.
    destruct (lastResize rest) as [[w h] |]; [exact Hr |].
    destruct m; destruct Hr, Hu; split; congruence.
Qed.
End UpdateFacts.

(** ** Rendering *)

Section ViewFacts.
Context `{E : Externals} `{P : Panel} `{L : Layout}.
Implicit Types (b : Bubble).

Lemma viewForBox_Some b (i w : Z) (box : Box) :
  boxAt b i = Some box ->
  viewForBox b i w = Some (Render (Width (boxStyle b i) w) (Text (box_View box))).
Proof.
  intros Hb. unfold viewForBox, boxStyle. rewrite Hb. simpl.
  case_bool_decide; reflexivity.
Qed.

(** The view of a loaded bubble, written out. *)
Lemma View_loaded b cfg (b0 b1 : Box) :
  state b = loadedState -> config b = Some cfg -> boxes b = [Some b0; Some b1] ->
  View b =
    Some (Render (plain appBoxStyle)
            (Cat (Render (Width headerStyle (int_sub (width b) horizontalPadding))
                    (Text (Config_Name cfg)))
               (Cat (Text (newline ++ newline))
                  (Cat (JoinHorizontal Top
                          [Render (Width (boxStyle b 0) boxLeftWidth) (Text (box_View b0));
                           Render (Width (boxStyle b 1) boxRightWidth) (Text (box_View b1))])
                     (Cat (Text newline) (Render (plain footerStyle) (Text ""))))))).
Proof.
  intros Hs Hc Hb. unfold View. rewrite Hc, Hs. simpl.
  rewrite (viewForBox_Some b 0 boxLeftWidth b0) by (unfold boxAt, index; rewrite Hb; reflexivity).
  rewrite (viewForBox_Some b 1 boxRightWidth b1) by (unfold boxAt, index; rewrite Hb; reflexivity).
  reflexivity.
Qed.

Lemma View_header b doc :
  View b = Some doc -> headerWidth doc = Some (int_sub (width b) horizontalPadding).
Proof.
  unfold View. destruct (config b) as [cfg |]; simpl; [| discriminate].
  match goal with |- context [mbind _ ?s] => destruct s as [d |] end;
    simpl; [| discriminate].
  intros [= <-]. reflexivity.
Qed.

Lemma View_total b cfg : wf b -> config b = Some cfg -> exists doc, View b = Some doc.
Proof.
  intros [Hf Hr] Hc. destruct (decide (state b = loadedState)) as [Hs | Hs].
  - destruct (Hr Hs) as (b0 & b1 & Hb). rewrite (View_loaded b cfg b0 b1 Hs Hc Hb). eauto.
  - unfold View. rewrite Hc. simpl. destruct (state b); try contradiction; simpl; eauto.
Qed.
End ViewFacts.

(** ** The claims on [Update] and [View] *)

Section BubbleClaims.
Context `{E : Externals} `{P : Panel} `{L : Layout}.
Implicit Types (b : Bubble) (msg : Msg) (cmds : list Cmd).

Lemma tea_Batch_appendCmd (c : Cmd) (cmd : option Cmd) :
  tea_Batch (appendCmd [c] cmd) = Some (Batch (c :: option_list cmd)).
Proof. destruct cmd; reflexivity. Qed.

Lemma delegate_quits b msg cmds b' c :
  panels_never_quit -> Forall (fun x => quits x = false) cmds ->
  delegate b msg cmds = Some (b', Some c) -> quits c = false.
Proof.
  intros Hp Hall. unfold delegate. destruct (decide _).
  - destruct (boxAt b (activeBox b)) as [box |]; simpl; [| discriminate].
    destruct (box_Update box msg) as [ab cmd] eqn:Hbox. intros [= _ Hc].
    assert (Hall' : Forall (fun x => quits x = false) (appendCmd cmds cmd)).
    { destruct cmd as [c0 |]; simpl; [| exact Hall].
      apply Forall_app. split; [exact Hall |]. constructor; [| constructor].
      apply (Hp box msg). rewrite Hbox. reflexivity. }
    destruct (appendCmd cmds cmd) as [| x xs]; simpl in Hc; [discriminate |].
    injection Hc as <-. simpl.
    inversion Hall' as [| ? ? Hx Hxs]; subst. rewrite Hx. simpl.
    clear -Hxs. induction Hxs as [| y ys Hy _ IH]; simpl; [reflexivity |].
    rewrite Hy. exact IH.
  - intros [= _ Hc]. destruct cmds as [| x xs]; simpl in Hc; [discriminate |].
    injection Hc as <-. simpl.
    inversion Hall as [| ? ? Hx Hxs]; subst. rewrite Hx. simpl.
    clear -Hxs. induction Hxs as [| y ys Hy _ IH]; simpl; [reflexivity |].
    rewrite Hy. exact IH.
Qed.

Lemma lastResize_app (pre post : list Msg) (w h : Z) :
  Forall (fun m => isResize m = false) post ->
  lastResize (pre ++ WindowSizeMsg w h :: post) = Some (w, h).
Proof.
  intros Hpost.
  assert (Hnone : lastResize post = None).
  { induction Hpost as [| m rest Hm _ IH]; simpl; [reflexivity |].
    rewrite IH. destruct m; try reflexivity. discriminate Hm. }
  induction pre as [| m pre IH]; simpl.
  - rewrite Hnone. reflexivity.
  - rewrite IH. reflexivity.
Qed.

(** C1, as amended. On the tab key [Update] first moves the focus index
    of a bubble whose focus is 0 or 1 to the next one modulo 2. Outside
    [loadedState] that is all: no panel is called. In [loadedState] the
    tab key is then given, like any other message, to the [Update] of the
    panel that has just received the focus, and that panel is stored
    back. *)
Theorem C1_tab_cycles_focus_then_delegates b :
  focus_valid b ->
  let a' := (activeBox b + 1) mod 2 in
  (state b <> loadedState ->
     Update b (KeyMsg "tab") = Some (set_activeBox a' b, None)) /\
  (state b = loadedState ->
     forall box : Box, boxAt b a' = Some box ->
       Update b (KeyMsg "tab") =
         Some (set_boxes
                 (<[Z.to_nat a' := Some (box_Update box (KeyMsg "tab")).1]> (boxes b))
                 (set_activeBox a' b),
               tea_Batch (option_list (box_Update box (KeyMsg "tab")).2))).
Proof.
  intros Hf a'. unfold Update. change (isQuitKey "tab") with false.
  change (String.eqb "tab" "tab") with true. cbv iota.
  rewrite (focus_cycle _ Hf). fold a'. split.
  - intros Hs. apply delegate_not_loaded. exact Hs.
  - intros Hs box Hbox.
    rewrite (delegate_loaded (set_activeBox a' b) (KeyMsg "tab") [] box Hs Hbox).
    simpl. destruct (box_Update box (KeyMsg "tab")) as [ab [c |]]; reflexivity.
Qed.

(** C2, as amended. In [loadedState] the view joins the two boxes side by
    side, the left one rendered at the width [boxLeftWidth] and the right
    one at [boxRightWidth], two constants of the package that do not
    depend on the geometry of the bubble; only the header is rendered at
    the bubble's width minus [horizontalPadding]. After a resize this
    still holds with the new width in the header, and the focus is as
    before. *)
Theorem C2_box_widths_are_constants b cfg (w h : Z) :
  wf b -> state b = loadedState -> config b = Some cfg ->
  (exists doc0,
     View b = Some doc0 /\
     headerWidth doc0 = Some (int_sub (width b) horizontalPadding) /\
     boxWidths doc0 = Some (boxLeftWidth, boxRightWidth)) /\
  exists b' c doc,
    Update b (WindowSizeMsg w h) = Some (b', c) /\
    activeBox b' = activeBox b /\
    View b' = Some doc /\
    headerWidth doc = Some (int_sub w horizontalPadding) /\
    boxWidths doc = Some (boxLeftWidth, boxRightWidth).
Proof.
  intros Hwf Hs Hc. split.
  { destruct Hwf as [_ Hr]. destruct (Hr Hs) as (b0 & b1 & Hb).
    eexists. split; [exact (View_loaded b cfg b0 b1 Hs Hc Hb) |].
    split; reflexivity. }
  destruct (Update_total b (WindowSizeMsg w h) Hwf I) as (b' & c & Hu).
  pose proof (Update_wf _ _ _ _ Hwf Hu) as [Hf' Hr'].
  pose proof (Update_frame _ _ _ _ Hu) as (Hc' & _ & _).
  pose proof (Update_geometry _ _ _ _ Hu) as [Hw _]. simpl in Hw.
  pose proof (Update_focus _ _ _ _ Hu) as Ha. simpl in Ha.
  assert (Hs' : state b' = loadedState).
  { destruct (Update_state _ _ _ _ Hu) as [-> | (err & Hm & _)];
      [exact Hs | discriminate Hm]. }
  destruct (Hr' Hs') as (b0 & b1 & Hb).
  rewrite Hc in Hc'.
  exists b', c. eexists. split; [exact Hu |]. split; [exact Ha |].
  split; [exact (View_loaded b' cfg b0 b1 Hs' Hc' Hb) |].
  simpl. rewrite Hw. split; reflexivity.
Qed.

(** C5, as amended. In [loadedState], for an index of the menu, both a
    [SelectedMsg] and an [ActiveMsg] schedule [getRepoCmd] for the repo of
    the entry at that index; [SelectedMsg] sets the focus to box 1, the
    viewer, while [ActiveMsg] leaves the focus where it is. *)
Theorem C5_load_scheduled_only_selected_moves_focus b (i : Z) :
  wf b -> state b = loadedState -> 0 <= i < Z.of_nat (length (repoMenu b)) ->
  exists e,
    index (repoMenu b) i = Some e /\
    (exists b' cs,
       Update b (SelectedMsg i) =
         Some (b', Some (Batch (getRepoCmd (MenuEntry_Repo e) :: cs))) /\
       activeBox b' = 1) /\
    (exists b' cs,
       Update b (ActiveMsg i) =
         Some (b', Some (Batch (getRepoCmd (MenuEntry_Repo e) :: cs))) /\
       activeBox b' = activeBox b).
Proof.
  intros [Hf Hr] Hs Hi. destruct (index_Some (repoMenu b) i Hi) as [e He].
  exists e. split; [exact He |]. unfold Update. simpl. rewrite He. simpl. split.
  - destruct (boxAt_ready (set_activeBox 1 b) 1 Hr Hs) as [box Hbox]; [lia |].
    rewrite (delegate_loaded (set_activeBox 1 b) _ _ box Hs Hbox).
    rewrite tea_Batch_appendCmd. eauto.
  - destruct (boxAt_ready b (activeBox b) Hr Hs Hf) as [box Hbox].
    rewrite (delegate_loaded b _ _ box Hs Hbox).
    rewrite tea_Batch_appendCmd. eauto.
Qed.

(** C7. After a sequence of messages whose last resize carries [(w, h)],
    the bubble stores width [w] and height [h], and the next view is
    rendered from them: its header has the width [w] minus
    [horizontalPadding]. The sequence is processed to its end when every
    selection or activation in it carries an index of the menu. *)
Theorem C7_geometry_is_last_resize b cfg (pre post : list Msg) (w h : Z) :
  wf b -> config b = Some cfg ->
  Forall (admissible b) (pre ++ WindowSizeMsg w h :: post) ->
  Forall (fun m => isResize m = false) post ->
  exists b' cs doc,
    run b (pre ++ WindowSizeMsg w h :: post) = Some (b', cs) /\
    width b' = w /\ height b' = h /\
    View b' = Some doc /\
    headerWidth doc = Some (int_sub w horizontalPadding).
Proof.
  intros Hwf Hc Hadm Hpost.
  destruct (run_total _ b Hwf Hadm) as (b' & cs & Hrun).
  pose proof (run_geometry _ _ _ _ Hrun) as Hg.
  rewrite (lastResize_app pre post w h Hpost) in Hg. destruct Hg as [Hw Hh].
  pose proof (run_frame _ _ _ _ Hrun) as [Hc' _]. rewrite Hc in Hc'.
  destruct (View_total b' cfg (run_wf _ _ _ _ Hwf Hrun) Hc') as [doc Hdoc].
  exists b', cs, doc. repeat split; try assumption.
  rewrite (View_header _ _ Hdoc), Hw. reflexivity.
Qed.

(** C8. For a [SelectedMsg] or an [ActiveMsg] whose index is one of the
    menu, the lookup [b.repoMenu[msg.Index]] finds an entry, and [Update]
    goes on with the command for that entry: the branch where the index
    is out of range is not taken. *)
Theorem C8_menu_index_in_bounds b (i : Z) :
  0 <= i < Z.of_nat (length (repoMenu b)) ->
  exists e,
    index (repoMenu b) i = Some e /\
    repoMenu b !! Z.to_nat i = Some e /\
    Update b (SelectedMsg i) =
      delegate (set_activeBox 1 b) (SelectedMsg i) [getRepoCmd (MenuEntry_Repo e)] /\
    Update b (ActiveMsg i) =
      delegate b (ActiveMsg i) [getRepoCmd (MenuEntry_Repo e)].
Proof.
  intros Hi. destruct (index_Some (repoMenu b) i Hi) as [e He]. exists e.
  split; [exact He |]. split.
  - unfold index in He. rewrite bool_decide_eq_true_2 in He by exact Hi. exact He.
  - unfold Update. simpl. rewrite He. split; reflexivity.
Qed.

(** Outside the menu the lookup panics, whatever the state. *)
Lemma Update_index_out_of_range b (i : Z) :
  ~ (0 <= i < Z.of_nat (length (repoMenu b))) ->
  Update b (SelectedMsg i) = None /\ Update b (ActiveMsg i) = None.
Proof.
  intros Hi. unfold Update. simpl. rewrite (index_None _ _ Hi). split; reflexivity.
Qed.

Lemma reachable_focus_valid b0 b : focus_valid b0 -> reachable b0 b -> focus_valid b.
Proof.
  intros H0 Hreach. induction Hreach as [| b msg b' c _ IH Hu]; [exact H0 |].
  pose proof (Update_focus _ _ _ _ Hu) as Ha. unfold focus_valid in *.
  destruct msg; try (rewrite Ha; lia).
  rewrite Ha. destruct (isQuitKey key); [lia |].
  destruct (String.eqb key "tab"); [| lia].
  rewrite focus_cycle by exact IH. apply Z.mod_pos_bound. lia.
Qed.

(** C9. From a bubble whose focus index is 0 or 1, as [NewBubble] makes
    it, every bubble reached through [Update] has its focus index in
    [[0, 2)], so has the result of every further step; the tab key twice
    in a row brings the focus index back, and is processed whenever the
    loaded bubble has its two boxes. *)
Theorem C9_focus_in_range_and_cycles b0 b :
  focus_valid b0 -> reachable b0 b ->
  0 <= activeBox b < 2 /\
  (forall msg b' c, Update b msg = Some (b', c) -> 0 <= activeBox b' < 2) /\
  (forall b2 cs,
     run b (replicate 2 (KeyMsg "tab")) = Some (b2, cs) -> activeBox b2 = activeBox b) /\
  (boxes_ready b -> exists b2 cs, run b (replicate 2 (KeyMsg "tab")) = Some (b2, cs)).
Proof.
  intros H0 Hreach. pose proof (reachable_focus_valid _ _ H0 Hreach) as Hf.
  split; [exact Hf |]. split; [| split].
  - intros msg b' c Hu.
    exact (reachable_focus_valid _ _ H0 (reachable_step _ _ _ _ _ Hreach Hu)).
  - intros b2 cs Hrun. simpl replicate in Hrun.
    apply run_cons in Hrun as (b1 & c1 & cs1 & Hu1 & Hrun & _).
    apply run_cons in Hrun as (b2' & c2 & cs2 & Hu2 & Hrun & _).
    injection Hrun as <- _.
    pose proof (Update_focus _ _ _ _ Hu1) as H1.
    pose proof (Update_focus _ _ _ _ Hu2) as H2.
    change (isQuitKey "tab") with false in H1, H2.
    change (String.eqb "tab" "tab") with true in H1, H2. cbv iota in H1, H2.
    rewrite focus_cycle in H1 by exact Hf.
    assert (Hf1 : 0 <= activeBox b1 < 2) by (rewrite H1; apply Z.mod_pos_bound; lia).
    rewrite focus_cycle in H2 by exact Hf1. rewrite H2, H1.
    unfold focus_valid in Hf.
    assert (activeBox b = 0 \/ activeBox b = 1) as [-> | ->] by lia; reflexivity.
  - intros Hr. apply run_total; [split; assumption |].
    repeat constructor.
Qed.
End BubbleClaims.

Section QuitClaims.
Context `{E : Externals} `{P : Panel} `{L : Layout}.
Implicit Types (b : Bubble).

Lemma Update_key_not_quit b (key : string) :
  wf b -> isQuitKey key = false ->
  exists b' c,
    Update b (KeyMsg key) = Some (b', c) /\ state b' = state b /\ wf b' /\
    (panels_never_quit -> forall c', c = Some c' -> quits c' = false).
Proof.
  intros Hwf Hq.
  destruct (Update_total b (KeyMsg key) Hwf I) as (b' & c & Hu).
  exists b', c. split; [exact Hu |]. split; [| split].
  - destruct (Update_state _ _ _ _ Hu) as [Hs | (err & Hm & _)];
      [exact Hs | discriminate Hm].
  - exact (Update_wf _ _ _ _ Hwf Hu).
  - intros Hp c' ->. unfold Update in Hu. rewrite Hq in Hu.
    destruct (String.eqb key "tab");
      exact (delegate_quits _ _ _ _ _ Hp (List.Forall_nil _) Hu).
Qed.

(** C10. A sequence of key messages none of which is ["q"] or ["ctrl+c"]
    is processed to its end by a bubble whose loaded state has its boxes,
    and leaves the state field as it was: a session that is not in
    [quittingState] or [quitState] does not get there. The controller
    returns no [Quit] either, so that no command quits unless a panel
    asks for it. *)
Theorem C10_no_quit_key_never_closes b (keys : list string) :
  wf b -> ~ closed b -> Forall (fun k => isQuitKey k = false) keys ->
  exists b' cs,
    run b (map KeyMsg keys) = Some (b', cs) /\
    state b' = state b /\ ~ closed b' /\
    (panels_never_quit -> Forall (fun c => quits c = false) cs).
Proof.
  intros Hwf Hopen Hkeys. revert b Hwf Hopen.
  induction Hkeys as [| key rest Hq _ IH]; intros b Hwf Hopen.
  - exists b, []. simpl. repeat split; [exact Hopen | constructor].
  - destruct (Update_key_not_quit b key Hwf Hq) as (b1 & c & Hu & Hs1 & Hwf1 & Hc).
    assert (Hopen1 : ~ closed b1) by (unfold closed in *; rewrite Hs1; exact Hopen).
    destruct (IH b1 Hwf1 Hopen1) as (b2 & cs & Hrun & Hs2 & Hopen2 & Hcs).
    exists b2, (match c with Some c' => c' :: cs | None => cs end).
    split; [cbn [run map]; rewrite Hu; simpl; rewrite Hrun; reflexivity |].
    split; [congruence |]. split; [exact Hopen2 |].
    intros Hp. destruct c as [c' |]; [| exact (Hcs Hp)].
    constructor; [exact (Hc Hp c' eq_refl) | exact (Hcs Hp)].
Qed.

(** The quit keys themselves return [tea.Quit] and leave the state field
    alone: the run time, not [Update], ends the session. *)
Lemma Update_quit_key b (key : string) :
  isQuitKey key = true -> Update b (KeyMsg key) = Some (b, Some Quit).
Proof. intros Hq. unfold Update. rewrite Hq. reflexivity. Qed.
End QuitClaims.

(** ** The configuration loader *)

(** *** The first error stays

    Each step of the decoder hands on the error that was saved before it. *)

Definition keeps (saved saved' : option JsonError) : Prop :=
  forall e, saved = Some e -> saved' = Some e.

Lemma keeps_refl (saved : option JsonError) : keeps saved saved.
Proof. intros e He. exact He. Qed.

Lemma keeps_trans (a b c : option JsonError) : keeps a b -> keeps b c -> keeps a c.
Proof. intros Hab Hbc e He. apply Hbc, Hab, He. Qed.

Lemma keeps_saveError (saved : option JsonError) (e : JsonError) :
  keeps saved (saveError saved e).
Proof. intros e' ->. reflexivity. Qed.

Lemma keeps_saveErrors (saved err : option JsonError) : keeps saved (saveErrors saved err).
Proof. destruct err; [apply keeps_saveError | apply keeps_refl]. Qed.

Lemma keeps_mismatch (saved : option JsonError) (j : JSON) : keeps saved (mismatch saved j).
Proof. unfold mismatch. destruct (kindOf j); [apply keeps_saveError | apply keeps_refl]. Qed.

Lemma mismatch_Some (saved : option JsonError) (j : JSON) :
  kindOf j <> None -> exists e, mismatch saved j = Some e.
Proof.
  unfold mismatch. destruct (kindOf j) as [k |]; [| contradiction].
  intros _. destruct saved; simpl; eauto.
Qed.

Create HintDb keeps.
#[local] Hint Resolve keeps_refl keeps_saveError keeps_saveErrors keeps_mismatch : keeps.

Lemma keeps_decodeString j old saved : keeps saved (decodeString j old saved).2.
Proof. destruct j; simpl; auto with keeps. Qed.

Lemma keeps_decodeBool j old saved : keeps saved (decodeBool j old saved).2.
Proof. destruct j; simpl; auto with keeps. Qed.

Lemma keeps_decodeInt64 j old saved : keeps saved (decodeInt64 j old saved).2.
Proof. destruct j; simpl; try case_bool_decide; simpl; auto with keeps. Qed.

Lemma keeps_setMenuEntryField f j e saved : keeps saved (setMenuEntryField f j e saved).2.
Proof.
  destruct f; simpl;
    match goal with
    | |- context [decodeString ?j ?o ?s] =>
        pose proof (keeps_decodeString j o s) as H; destruct (decodeString j o s)
    end; exact H.
Qed.

Lemma keeps_decodeMenuEntryMembers ms : forall e saved,
  keeps saved (decodeMenuEntryMembers ms e saved).2.
Proof.
  induction ms as [| [key j] rest IH]; intros e saved; simpl; [apply keeps_refl |].
  destruct (findField menuEntryFields key) as [f |]; [| apply IH].
  pose proof (keeps_setMenuEntryField f j e saved) as H.
  destruct (setMenuEntryField f j e saved) as [e' sv]. simpl in H.
  eapply keeps_trans; [exact H | apply IH].
Qed.

Lemma keeps_decodeMenuEntry j e saved : keeps saved (decodeMenuEntry j e saved).2.
Proof.
  destruct j; simpl; auto with keeps. apply keeps_decodeMenuEntryMembers.
Qed.

Lemma keeps_decodeElement i j s saved : keeps saved (decodeElement i j s saved).2.
Proof.
  unfold decodeElement.
  destruct (arr (extendSlice i (growSlice i s)) !! i) as [e |]; [| apply keeps_refl].
  pose proof (keeps_decodeMenuEntry j e saved) as H.
  destruct (decodeMenuEntry j e saved). exact H.
Qed.

Lemma keeps_decodeElements vs : forall i s saved,
  keeps saved (decodeElements i vs s saved).2.
Proof.
  induction vs as [| j rest IH]; intros i s saved; simpl; [apply keeps_refl |].
  pose proof (keeps_decodeElement i j s saved) as H.
  destruct (decodeElement i j s saved) as [s' sv]. simpl in H.
  eapply keeps_trans; [exact H | apply IH].
Qed.

Lemma keeps_decodeMenu j s saved : keeps saved (decodeMenu j s saved).2.
Proof.
  destruct j; simpl; auto with keeps.
  pose proof (keeps_decodeElements vs 0 s saved) as H.
  destruct (decodeElements 0 vs s saved). exact H.
Qed.

Section ConfigFacts.
Context `{E : Externals}.

Lemma keeps_decodeRepoSource j p rs saved : keeps saved (decodeRepoSource j p rs saved).2.
Proof.
  destruct j; simpl; auto with keeps.
  destruct p; simpl;
    match goal with
    | |- context [unmarshalRepoSource ?ms ?v] => destruct (unmarshalRepoSource ms v)
    end; simpl; auto with keeps.
Qed.

Lemma keeps_setConfigField f j cfg rs saved :
  keeps saved (setConfigField f j cfg rs saved).2.
Proof.
  destruct f; simpl.
  - pose proof (keeps_decodeString j (Config_Name cfg) saved) as H.
    destruct (decodeString j (Config_Name cfg) saved). exact H.
  - pose proof (keeps_decodeString j (Config_Host cfg) saved) as H.
    destruct (decodeString j (Config_Host cfg) saved). exact H.
  - pose proof (keeps_decodeInt64 j (Config_Port cfg) saved) as H.
    destruct (decodeInt64 j (Config_Port cfg) saved). exact H.
  - pose proof (keeps_decodeBool j (Config_ShowAllRepos cfg) saved) as H.
    destruct (decodeBool j (Config_ShowAllRepos cfg) saved). exact H.
  - pose proof (keeps_decodeMenu j (Config_Menu cfg) saved) as H.
    destruct (decodeMenu j (Config_Menu cfg) saved). exact H.
  - pose proof (keeps_decodeRepoSource j (Config_RepoSource cfg) rs saved) as H.
    destruct (decodeRepoSource j (Config_RepoSource cfg) rs saved) as [[p rs'] sv].
    exact H.
Qed.

Lemma keeps_decodeConfigMembers ms : forall cfg rs saved,
  keeps saved (decodeConfigMembers ms cfg rs saved).2.
Proof.
  induction ms as [| [key j] rest IH]; intros cfg rs saved; simpl; [apply keeps_refl |].
  destruct (findField configFields key) as [f |]; [| apply IH].
  pose proof (keeps_setConfigField f j cfg rs saved) as H.
  destruct (setConfigField f j cfg rs saved) as [[cfg' rs'] sv]. simpl in H.
  eapply keeps_trans; [exact H | apply IH].
Qed.

(** A value of the wrong kind for its field leaves an error. *)
Lemma setConfigField_misfit f j cfg rs saved :
  fits f j = false -> exists e, (setConfigField f j cfg rs saved).2 = Some e.
Proof.
  intros Hfit.
  assert (Hsave : forall x, exists e, saveError saved x = Some e)
    by (intros x; destruct saved; simpl; eauto).
  destruct f, j; simpl in Hfit; try discriminate Hfit; simpl;
    try (apply mismatch_Some; discriminate);
    try (destruct (Config_RepoSource cfg); simpl; apply mismatch_Some; discriminate).
  rewrite bool_decide_eq_false_2 by (intros Hn; apply bool_decide_eq_false_1 in Hfit; tauto).
  simpl. apply Hsave.
Qed.

Lemma decodeConfigMembers_app (ms1 ms2 : list (string * JSON)) :
  forall cfg rs saved,
    decodeConfigMembers (ms1 ++ ms2) cfg rs saved =
      let '(cfg1, rs1, sv1) := decodeConfigMembers ms1 cfg rs saved in
      decodeConfigMembers ms2 cfg1 rs1 sv1.
Proof.
  induction ms1 as [| [key j] rest IH]; intros cfg rs saved; simpl; [reflexivity |].
  destruct (findField configFields key) as [f |]; [| apply IH].
  destruct (setConfigField f j cfg rs saved) as [[cfg' rs'] sv]. apply IH.
Qed.

(** A member whose key is no field of [Config] changes nothing, wherever
    it stands in the document. *)
Lemma unknown_member_skipped (ms1 ms2 : list (string * JSON)) (key : string)
    (j : JSON) cfg rs saved :
  findField configFields key = None ->
  decodeConfigMembers (ms1 ++ (key, j) :: ms2) cfg rs saved =
    decodeConfigMembers (ms1 ++ ms2) cfg rs saved.
Proof.
  intros Hkey. rewrite !decodeConfigMembers_app.
  destruct (decodeConfigMembers ms1 cfg rs saved) as [[cfg1 rs1] sv1].
  simpl. rewrite Hkey. reflexivity.
Qed.
End ConfigFacts.

(** ** Decoding a menu *)

Lemma decodeMenuEntry_entryDocument (e e0 : MenuEntry) (saved : option JsonError) :
  decodeMenuEntry (entryDocument e) e0 saved = (e, saved).
Proof. destruct e, e0. reflexivity. Qed.

(** One element decoded at the end of a slice whose spare capacity is
    zeroed: the entry is appended, the spare capacity stays zeroed. *)
Lemma decodeElement_fresh (pre : list MenuEntry) (n : nat) (e : MenuEntry)
    (saved : option JsonError) :
  exists m,
    decodeElement (length pre) (entryDocument e)
      (mkSlice (pre ++ replicate n zeroMenuEntry) (length pre)) saved =
    (mkSlice ((pre ++ [e]) ++ replicate m zeroMenuEntry) (S (length pre)), saved).
Proof.
  set (i := length pre).
  assert (Hgrow : exists m,
    growSlice i (mkSlice (pre ++ replicate n zeroMenuEntry) i)
    = mkSlice (pre ++ replicate (S m) zeroMenuEntry) i).
  { unfold growSlice. unfold cap. cbn [arr len]. rewrite length_app, length_replicate. fold i.
    case_bool_decide as Hcap.
    - assert (n = 0%nat) as -> by lia. rewrite Nat.add_0_r.
      change (replicate 0 zeroMenuEntry) with (@nil MenuEntry).
      rewrite app_nil_r, take_ge by (unfold i; lia).
      cbv zeta. case_bool_decide as Hsmall.
      + exists (3 - i)%nat. f_equal. f_equal. f_equal. lia.
      + exists (i / 2 - 1)%nat. f_equal. f_equal. f_equal.
        pose proof (Nat.div_mod_eq i 2) as Hdiv.
        pose proof (Nat.mod_upper_bound i 2 ltac:(lia)) as Hmod.
        clearbody i. lia.
    - exists (n - 1)%nat. f_equal. f_equal. f_equal. lia. }
  destruct Hgrow as [m Hgrow]. exists m. unfold decodeElement.
  rewrite Hgrow. unfold extendSlice. cbn [len arr].
  rewrite bool_decide_eq_true_2 by lia. cbn [len arr].
  assert (Hlook : (pre ++ replicate (S m) zeroMenuEntry)%list !! i = Some zeroMenuEntry).
  { rewrite lookup_app_r by (unfold i; lia). unfold i. rewrite Nat.sub_diag. reflexivity. }
  rewrite Hlook, decodeMenuEntry_entryDocument. f_equal. f_equal.
  rewrite insert_app_r_alt by (unfold i; lia). unfold i. rewrite Nat.sub_diag.
  simpl. rewrite <- app_assoc. reflexivity.
Qed.

Lemma decodeElements_fresh (es : list MenuEntry) :
  forall (pre : list MenuEntry) (n : nat) (saved : option JsonError),
  exists m,
    decodeElements (length pre) (map entryDocument es)
      (mkSlice (pre ++ replicate n zeroMenuEntry) (length pre)) saved =
    (mkSlice ((pre ++ es) ++ replicate m zeroMenuEntry) (length pre + length es), saved).
Proof.
  induction es as [| e rest IH]; intros pre n saved.
  - exists n. simpl. rewrite app_nil_r, Nat.add_0_r. reflexivity.
  - destruct (decodeElement_fresh pre n e saved) as [m1 H1].
    destruct (IH (pre ++ [e])%list m1 saved) as [m2 H2].
    exists m2. cbn [decodeElements map]. rewrite H1.
    rewrite length_app in H2. simpl in H2. rewrite Nat.add_1_r in H2.
    rewrite H2. rewrite <- !app_assoc. simpl. do 2 f_equal. lia.
Qed.

(** A list of entries decoded into the nil slice gives these entries. *)
Lemma decodeMenu_fresh (es : list MenuEntry) (saved : option JsonError) :
  exists menu,
    decodeMenu (JArray (map entryDocument es)) nilSlice saved = (menu, saved) /\
    elems menu = es.
Proof.
  destruct (decodeElements_fresh es [] 0 saved) as [m Hm]. simpl in Hm.
  unfold decodeMenu, nilSlice. rewrite Hm. rewrite length_map. cbn [len arr].
  case_bool_decide as Hlen.
  - destruct es; [| discriminate Hlen]. eexists. split; reflexivity.
  - eexists. split; [reflexivity |]. case_bool_decide; [lia |].
    unfold elems. cbn [len arr]. rewrite take_app_length. reflexivity.
Qed.

(** ** The claims on the configuration and on the server *)

Section LoaderClaims.
Context `{E : Externals} `{P : Panel} `{L : Layout}.

Lemma loadConfig_text rs cr (text : string) :
  GetRepo rs "config" = inr cr -> LatestFile cr "config.json" = inr text ->
  loadConfig rs = afterUnmarshal (Unmarshal text newConfig rs).
Proof. intros Hr Hf. unfold loadConfig. rewrite Hr, Hf. reflexivity. Qed.

Lemma decodeConfig_configDocument (name host : string) (port : Z) (showAll : bool)
    (menu : list MenuEntry) rs :
  int_min <= port <= int_max ->
  exists m,
    decodeConfig (configDocument name host port showAll menu) newConfig rs =
      (mkConfig name host port showAll m sharedPtr, rs, None) /\
    elems m = menu.
Proof.
  intros Hport. destruct (decodeMenu_fresh menu None) as (m & Hm & Helems).
  exists m. split; [| exact Helems].
  unfold configDocument, decodeConfig, newConfig. cbn [decodeConfigMembers].
  change (findField configFields "name") with (Some FName).
  change (findField configFields "host") with (Some FHost).
  change (findField configFields "port") with (Some FPort).
  change (findField configFields "show_all_repos") with (Some FShowAllRepos).
  change (findField configFields "menu") with (Some FMenu).
  cbn -[decodeMenu bool_decide int_min int_max].
  rewrite bool_decide_eq_true_2 by exact Hport.
  cbn -[decodeMenu]. rewrite Hm. reflexivity.
Qed.

(** C4, as amended. With the text of [config.json] at hand, [loadConfig]
    fails when the text is not well-formed JSON, when its value is neither
    an object nor [null], and when a member has a value of the wrong kind
    for the field its key names. It decodes the members [name], [host],
    [port] (an integer of the 64-bit range), [show_all_repos] and [menu]
    into the [Config], the entries of the menu in their order. A member
    whose key matches no field of [Config] is skipped wherever it stands;
    [show_all] is such a key, the field being tagged [show_all_repos]. *)
Theorem C4_loadConfig_decodes_the_document rs cr (text : string) :
  GetRepo rs "config" = inr cr -> LatestFile cr "config.json" = inr text ->
  (scan text = None -> loadConfig rs = (rs, inl (BadJson SyntaxError))) /\
  (forall j k, scan text = Some j -> kindOf j = Some k -> k <> KObject ->
     loadConfig rs = (rs, inl (BadJson (UnmarshalTypeError k)))) /\
  (forall ms1 ms2 key f j,
     scan text = Some (JObject (ms1 ++ (key, j) :: ms2)) ->
     findField configFields key = Some f -> fits f j = false ->
     exists rs' e, loadConfig rs = (rs', inl (BadJson e))) /\
  (forall name host port showAll menu,
     scan text = Some (configDocument name host port showAll menu) ->
     int_min <= port <= int_max ->
     exists m,
       loadConfig rs = (rs, inr (mkConfig name host port showAll m sharedPtr)) /\
       elems m = menu) /\
  (forall ms1 ms2 key j,
     scan text = Some (JObject (ms1 ++ (key, j) :: ms2)) ->
     findField configFields key = None ->
     loadConfig rs = afterUnmarshal (decodeConfig (JObject (ms1 ++ ms2)) newConfig rs)) /\
  findField configFields "show_all" = None /\
  findField configFields "show_all_repos" = Some FShowAllRepos.
Proof.
  intros Hr Hf. rewrite (loadConfig_text rs cr text Hr Hf). unfold Unmarshal.
  split; [| split; [| split; [| split; [| split]]]].
  - intros ->. reflexivity.
  - intros j k -> Hk Hobj. destruct j; simpl in Hk; try discriminate Hk;
      injection Hk as <-; try reflexivity. contradiction.
  - intros ms1 ms2 key f j -> Hkey Hfit. unfold decodeConfig.
    rewrite decodeConfigMembers_app.
    destruct (decodeConfigMembers ms1 newConfig rs None) as [[cfg1 rs1] sv1].
    cbn [decodeConfigMembers]. rewrite Hkey.
    destruct (setConfigField_misfit f j cfg1 rs1 sv1 Hfit) as [e He].
    destruct (setConfigField f j cfg1 rs1 sv1) as [[cfg2 rs2] sv2]. simpl in He.
    pose proof (keeps_decodeConfigMembers ms2 cfg2 rs2 sv2 e He) as Hkeep.
    destruct (decodeConfigMembers ms2 cfg2 rs2 sv2) as [[cfg3 rs3] sv3].
    simpl in Hkeep. subst sv3. exists rs3, e. reflexivity.
  - intros name host port showAll menu -> Hport.
    destruct (decodeConfig_configDocument name host port showAll menu rs Hport)
      as (m & Hm & Helems).
    exists m. rewrite Hm. split; [reflexivity | exact Helems].
  - intros ms1 ms2 key j -> Hkey. unfold decodeConfig.
    rewrite (unknown_member_skipped ms1 ms2 key j _ _ _ Hkey). reflexivity.
  - split; reflexivity.
Qed.

(** The keys the decoder takes for fields that the list of the five
    tagged names leaves out: other spellings of a name, and the name of
    the exported field [RepoSource], which [null] sets to nil. *)
Lemma other_keys_of_Config rs :
  findField configFields "NAME" = Some FName /\
  findField configFields "Show_All_Repos" = Some FShowAllRepos /\
  findField configFields
    ("ho" ++ String (ascii_of_nat 197) (String (ascii_of_nat 191) "t")) = Some FHost /\
  findField configFields "RepoSource" = Some FRepoSource /\
  decodeConfig (JObject [("RepoSource", JNull)]) newConfig rs =
    (mkConfig "" "" 0 false nilSlice nilPtr, rs, None).
Proof. repeat split; reflexivity. Qed.

(** A field that the document leaves out keeps its zero value: the empty
    object loads. *)
Lemma empty_document_loads rs :
  decodeConfig (JObject []) newConfig rs = (newConfig, rs, None).
Proof. reflexivity. Qed.

(** *** Start-up *)

Lemma SessionHandler_create_fails (path : string) rs1 (e : string) :
  createDefaultConfigRepo (NewRepoSource path) = (rs1, Some e) ->
  SessionHandler path = Exited [CannotCreateConfigRepo e].
Proof. intros Hc. unfold SessionHandler. rewrite Hc. reflexivity. Qed.

(** When the first load fails the handler is still returned, with a nil
    configuration. *)
Lemma SessionHandler_load_fails (path : string) rs1 rs2 (e : LoadError) :
  createDefaultConfigRepo (NewRepoSource path) = (rs1, None) ->
  loadConfig rs1 = (rs2, inl e) ->
  SessionHandler path = Serving (mkServer rs2 None [CannotLoadConfig e]).
Proof. intros Hc Hl. unfold SessionHandler. rewrite Hc, Hl. reflexivity. Qed.

(** A session with a terminal then panics in [NewBubble]. *)
Lemma handler_nil_config (s : Server) (sess : Session) :
  appCfg s = None -> Session_Command sess = [] -> Session_active sess = true ->
  handler s sess = None.
Proof.
  intros Hcfg Hcmd Hact. unfold handler. rewrite Hcmd, Hact, Hcfg. reflexivity.
Qed.

Lemma handler_config (s : Server) (sess : Session) cfg :
  appCfg s = Some cfg -> Session_Command sess = [] -> Session_active sess = true ->
  exists b, handler s sess = Some (Some (b, [WithAltScreen])) /\
            config b = Some cfg /\ state b = startState /\
            width b = Window_Width (Session_Pty sess) /\
            height b = Window_Height (Session_Pty sess) /\ wf b.
Proof.
  intros Hcfg Hcmd Hact. unfold handler. rewrite Hcmd, Hact, Hcfg. simpl.
  eexists. split; [reflexivity |]. unfold wf, focus_valid, boxes_ready. simpl.
  repeat split; try lia. intros Hs. discriminate Hs.
Qed.

(** *** The polling goroutine *)

(** C6. In a round of the polling loop, when [LoadRepos] fails, or when
    it succeeds and [loadConfig] fails, [appCfg] is what it was and one
    line is logged for the failure. When both succeed, in the first round
    or after any number of failed ones, [appCfg] is the configuration
    just loaded, nothing is logged, and a session created from then on
    gets a bubble with that configuration. *)
Theorem C6_poll_keeps_or_replaces (s : Server) :
  (forall rs1 e,
     LoadRepos (server_rs s) = (rs1, Some e) ->
     appCfg (poll s) = appCfg s /\
     logged (poll s) = (logged s ++ [CannotLoadRepos e])%list) /\
  (forall rs1 rs2 e,
     LoadRepos (server_rs s) = (rs1, None) -> loadConfig rs1 = (rs2, inl e) ->
     appCfg (poll s) = appCfg s /\
     logged (poll s) = (logged s ++ [CannotLoadConfig e])%list) /\
  (forall rs1 rs2 cfg,
     LoadRepos (server_rs s) = (rs1, None) -> loadConfig rs1 = (rs2, inr cfg) ->
     appCfg (poll s) = Some cfg /\ logged (poll s) = logged s /\
     forall sess,
       Session_Command sess = [] -> Session_active sess = true ->
       exists b, handler (poll s) sess = Some (Some (b, [WithAltScreen])) /\
                 config b = Some cfg).
Proof.
  split; [| split].
  - intros rs1 e Hl. unfold poll. rewrite Hl. split; reflexivity.
  - intros rs1 rs2 e Hl Hc. unfold poll. rewrite Hl, Hc. split; reflexivity.
  - intros rs1 rs2 cfg Hl Hc.
    assert (Hpoll : poll s = mkServer rs2 (Some cfg) (logged s))
      by (unfold poll; rewrite Hl, Hc; reflexivity).
    rewrite Hpoll. split; [reflexivity |]. split; [reflexivity |].
    intros sess Hcmd Hact.
    destruct (handler_config (mkServer rs2 (Some cfg) (logged s)) sess cfg
                eq_refl Hcmd Hact) as (b & Hb & Hcfg & _).
    exists b. split; assumption.
Qed.

(** A session that already runs keeps the configuration it was created
    with: no round of the loop and no message changes it. *)
Lemma running_session_keeps_config (b b' : Bubble) (msgs : list Msg) cs :
  run b msgs = Some (b', cs) -> config b' = config b.
Proof. intros Hrun. exact (proj1 (run_frame _ _ _ _ Hrun)). Qed.
End LoaderClaims.

(** ** The claims at work

    The statements above, run in the small world: where the code departs
    from a claim, the input that shows it; for every theorem with a
    premise, an input that meets the premise. *)

Ltac demo_wf :=
  split; [unfold focus_valid; simpl; lia | intros _; eexists _, _; reflexivity].

(** C1, as first stated, fails: in [loadedState] the tab key is handed to
    the [Update] of box 1, which records it. *)
Lemma C1_tab_reaches_panel :
  exists b',
    @Update demoExternals demoPanel (demoLoaded 80) (KeyMsg "tab") = Some (b', None) /\
    activeBox b' = 1 /\
    boxAt b' 1 = Some (received [KeyMsg "tab"]).
Proof. eexists. repeat split; reflexivity. Qed.

Lemma C1_witness :
  @Update demoExternals demoPanel (demoLoaded 80) (KeyMsg "tab") =
    Some (set_boxes [Some (received []); Some (received [KeyMsg "tab"])]
            (set_activeBox 1 (demoLoaded 80)), None).
Proof.
  destruct (@C1_tab_cycles_focus_then_delegates demoExternals demoPanel (demoLoaded 80))
    as [_ H]; [unfold focus_valid; simpl; lia |].
  exact (H eq_refl (received []) eq_refl).
Defined.

(** C2, as first stated, fails: whatever the constants of the layout, the
    width of the left box is not a positive proportion of the bubble's
    width less a fixed padding, since it is the same at every width. *)
Lemma C2_widths_not_proportional :
  ~ exists (L : Layout) (n d q : Z),
      0 < n /\ 0 < d /\
      forall w : Z, exists doc l r,
        @View demoExternals demoPanel L (demoLoaded w) = Some doc /\
        boxWidths doc = Some (l, r) /\
        l * d = n * (w - q).
Proof.
  intros (L & n & d & q & Hn & Hd & H).
  destruct (H q) as (doc0 & l0 & r0 & Hv0 & Hw0 & Hp0).
  destruct (H (q + 1)) as (doc1 & l1 & r1 & Hv1 & Hw1 & Hp1).
  rewrite (View_loaded (demoLoaded q) demoConfig (received []) (received [])
             eq_refl eq_refl eq_refl) in Hv0.
  rewrite (View_loaded (demoLoaded (q + 1)) demoConfig (received []) (received [])
             eq_refl eq_refl eq_refl) in Hv1.
  injection Hv0 as <-. injection Hv1 as <-.
  injection Hw0 as <- _. injection Hw1 as <- _.
  nia.
Qed.

Lemma C2_witness :
  (exists doc0,
     @View demoExternals demoPanel demoLayout (demoLoaded 80) = Some doc0 /\
     headerWidth doc0 = Some 78 /\
     boxWidths doc0 = Some (25, 80)) /\
  exists b' c doc,
    @Update demoExternals demoPanel (demoLoaded 80) (WindowSizeMsg 120 40) = Some (b', c) /\
    activeBox b' = 0 /\
    @View demoExternals demoPanel demoLayout b' = Some doc /\
    headerWidth doc = Some 118 /\
    boxWidths doc = Some (25, 80).
Proof.
  apply (@C2_box_widths_are_constants demoExternals demoPanel demoLayout
           (demoLoaded 80) demoConfig 120 40); [demo_wf | reflexivity | reflexivity].
Defined.

(** C3 fails on the code. With a [config.json] that is not well-formed
    the first load fails; the failure is only logged, the handler is
    returned with a nil configuration, and the first session with a
    terminal panics in [NewBubble]. A failure of
    [createDefaultConfigRepo], two lines above, does end the process. *)
Theorem C3_first_load_failure_is_not_fatal :
  @SessionHandler demoExternals "malformed" =
    Serving (@mkServer demoExternals (@NewRepoSource demoExternals "malformed") None
               [CannotLoadConfig (BadJson SyntaxError)]) /\
  @handler demoExternals demoPanel
    (@mkServer demoExternals (@NewRepoSource demoExternals "malformed") None
       [CannotLoadConfig (BadJson SyntaxError)]) demoSession = None.
Proof. split; reflexivity. Qed.

(** C4, as first stated, fails: a document whose only member is
    [show_all], set to true, loads into a configuration where
    [ShowAllRepos] is false. *)
Lemma C4_show_all_is_not_a_field :
  @scan demoExternals showAllText = Some (JObject [("show_all", JBool true)]) /\
  exists cfg,
    @loadConfig demoExternals (@NewRepoSource demoExternals "show_all") =
      (@NewRepoSource demoExternals "show_all", inr cfg) /\
    Config_ShowAllRepos cfg = false.
Proof. split; [reflexivity |]. eexists. split; reflexivity. Qed.

Lemma C4_witness :
  exists m,
    @loadConfig demoExternals (@NewRepoSource demoExternals "full") =
      (@NewRepoSource demoExternals "full", inr (mkConfig "Demo" "0.0.0.0" 23 true m sharedPtr)) /\
    elems m = [mkMenuEntry "repo1" "" "repo1"].
Proof.
  destruct (@C4_loadConfig_decodes_the_document demoExternals
              (@NewRepoSource demoExternals "full") ([("config.json", fullText)] : @Repo demoExternals) fullText
              eq_refl eq_refl) as (_ & _ & _ & H & _).
  apply (H "Demo" "0.0.0.0" 23 true [mkMenuEntry "repo1" "" "repo1"]);
    [reflexivity | unfold int_min, int_max; lia].
Defined.

(** C5, as first stated, fails: an [ActiveMsg] schedules the load and
    leaves the focus on box 0. *)
Lemma C5_active_keeps_focus :
  exists b',
    @Update demoExternals demoPanel (demoLoaded 80) (ActiveMsg 0) =
      Some (b', Some (Batch [getRepoCmd "repo1"])) /\
    activeBox b' = 0.
Proof. eexists. split; reflexivity. Qed.

Lemma C5_witness :
  exists e,
    index (repoMenu (demoLoaded 80)) 0 = Some e /\
    (exists b' cs,
       @Update demoExternals demoPanel (demoLoaded 80) (SelectedMsg 0) =
         Some (b', Some (Batch (getRepoCmd (MenuEntry_Repo e) :: cs))) /\
       activeBox b' = 1) /\
    (exists b' cs,
       @Update demoExternals demoPanel (demoLoaded 80) (ActiveMsg 0) =
         Some (b', Some (Batch (getRepoCmd (MenuEntry_Repo e) :: cs))) /\
       activeBox b' = activeBox (demoLoaded 80)).
Proof.
  apply (@C5_load_scheduled_only_selected_moves_focus demoExternals demoPanel
           (demoLoaded 80) 0); [demo_wf | reflexivity | simpl; lia].
Defined.

Lemma C6_witness :
  appCfg (@poll demoExternals
            (@mkServer demoExternals (@NewRepoSource demoExternals "demo") None
               [CannotLoadConfig (BadJson SyntaxError)])) = Some demoConfig.
Proof.
  destruct (@C6_poll_keeps_or_replaces demoExternals demoPanel
              (@mkServer demoExternals (@NewRepoSource demoExternals "demo") None
                 [CannotLoadConfig (BadJson SyntaxError)])) as (_ & _ & H).
  destruct (H (@NewRepoSource demoExternals "demo") (@NewRepoSource demoExternals "demo") demoConfig
              eq_refl eq_refl) as [Hcfg _].
  exact Hcfg.
Defined.

Lemma C7_witness :
  exists b' cs doc,
    @run demoExternals demoPanel (demoLoaded 80)
      ([WindowSizeMsg 100 30; KeyMsg "tab"] ++ WindowSizeMsg 120 40 :: [KeyMsg "j"])
      = Some (b', cs) /\
    width b' = 120 /\ height b' = 40 /\
    @View demoExternals demoPanel demoLayout b' = Some doc /\
    headerWidth doc = Some 118.
Proof.
  apply (@C7_geometry_is_last_resize demoExternals demoPanel demoLayout
           (demoLoaded 80) demoConfig [WindowSizeMsg 100 30; KeyMsg "tab"]
           [KeyMsg "j"] 120 40);
    [demo_wf | reflexivity | repeat constructor | repeat constructor].
Defined.

Lemma C8_witness :
  exists e,
    index (repoMenu (demoLoaded 80)) 0 = Some e /\
    repoMenu (demoLoaded 80) !! Z.to_nat 0 = Some e /\
    @Update demoExternals demoPanel (demoLoaded 80) (SelectedMsg 0) =
      delegate (set_activeBox 1 (demoLoaded 80)) (SelectedMsg 0)
        [getRepoCmd (MenuEntry_Repo e)] /\
    @Update demoExternals demoPanel (demoLoaded 80) (ActiveMsg 0) =
      delegate (demoLoaded 80) (ActiveMsg 0) [getRepoCmd (MenuEntry_Repo e)].
Proof.
  apply (@C8_menu_index_in_bounds demoExternals demoPanel (demoLoaded 80) 0).
  simpl. lia.
Defined.

Lemma C9_witness :
  exists b2 cs,
    @run demoExternals demoPanel (demoLoaded 80) (replicate 2 (KeyMsg "tab"))
      = Some (b2, cs) /\
    activeBox b2 = 0.
Proof.
  destruct (@C9_focus_in_range_and_cycles demoExternals demoPanel
              (demoLoaded 80) (demoLoaded 80)) as (_ & _ & Hback & Hruns);
    [unfold focus_valid; simpl; lia | constructor |].
  destruct Hruns as (b2 & cs & Hrun); [intros _; eexists _, _; reflexivity |].
  exists b2, cs. split; [exact Hrun | exact (Hback b2 cs Hrun)].
Defined.

Lemma C10_witness :
  exists b' cs,
    @run demoExternals demoPanel (demoLoaded 80) (map KeyMsg ["tab"; "j"])
      = Some (b', cs) /\
    state b' = loadedState /\ ~ closed b' /\
    (@panels_never_quit demoPanel -> Forall (fun c => quits c = false) cs).
Proof.
  apply (@C10_no_quit_key_never_closes demoExternals demoPanel (demoLoaded 80)
           ["tab"; "j"]);
    [demo_wf | intros [Hs | Hs]; discriminate Hs | repeat constructor].
Defined.


(** * Further properties of the code

    What follows is read off [tui/bubble.go] beyond the statements above:
    when the functions panic, what they leave alone, and how they compose. *)

Ltac demo_focus := unfold focus_valid; simpl; lia.

(** ** Steps of the bubble *)

Section MoreSteps.
Context `{E : Externals} `{P : Panel} `{L : Layout}.
Implicit Types (b : Bubble) (msg : Msg) (cmds : list Cmd).

(** Splits a successful [Update] along its switch, as far as the call of
    [delegate]; [b1] is the bubble that call is made on. *)
Lemma Update_cases b msg b' c :
  Update b msg = Some (b', c) ->
  (b' = b /\ c = Some Quit /\ exists key, msg = KeyMsg key /\ isQuitKey key = true) \/
  (exists err, msg = errMsg err /\ b' = set_state errorState (set_error err b) /\ c = None) \/
  (exists b1 cmds,
     delegate b1 msg cmds = Some (b', c) /\
     boxes b1 = boxes b /\ state b1 = state b /\ error b1 = error b /\
     repoMenu b1 = repoMenu b /\
     match msg with
     | windowMsg => cmds = [windowChangesCmd]
     | SelectedMsg i | ActiveMsg i =>
         exists e, index (repoMenu b) i = Some e /\ cmds = [getRepoCmd (MenuEntry_Repo e)]
     | errMsg _ => False
     | _ => cmds = []
     end).
Proof.
  intros H. unfold Update in H.
  destruct msg as [key | err | | w h | i | i | tag].
  - destruct (isQuitKey key) eqn:Hq.
    + injection H as <- <-. left. eauto.
    + right. right. destruct (String.eqb key "tab");
        eexists _, _; (split; [exact H |]); simpl; repeat split.
  - injection H as <- <-. right. left. eauto.
  - right. right. eexists _, _. split; [exact H |]. simpl. repeat split.
  - right. right. eexists _, _. split; [exact H |]. simpl. repeat split.
  - simpl in H. destruct (index (repoMenu b) i) as [e |] eqn:He; simpl in H;
      [| discriminate H].
    right. right. eexists _, _. split; [exact H |]. simpl. repeat split. eauto.
  - destruct (index (repoMenu b) i) as [e |] eqn:He; simpl in H; [| discriminate H].
    right. right. eexists _, _. split; [exact H |]. simpl. repeat split. eauto.
  - right. right. eexists _, _. split; [exact H |]. simpl. repeat split.
Qed.

Lemma delegate_other_boxes b msg cmds b' c (i : Z) :
  delegate b msg cmds = Some (b', c) -> i <> activeBox b ->
  index (boxes b') i = index (boxes b) i.
Proof.
  intros Hd Hi. unfold delegate in Hd. destruct (decide _).
  - destruct (boxAt b (activeBox b)) as [box |] eqn:Hbox; simpl in Hd; [| discriminate Hd].
    destruct (box_Update box msg) as [ab cmd]. injection Hd as <- _. simpl.
    unfold boxAt in Hbox. destruct (index (boxes b) (activeBox b)) as [o |] eqn:Hidx;
      [| discriminate Hbox].
    unfold index in Hidx |- *. rewrite length_insert.
    case_bool_decide as Ha; [| discriminate Hidx].
    case_bool_decide as Hr; [| reflexivity].
    apply list_lookup_insert_ne. lia.
  - injection Hd as <- _. reflexivity.
Qed.

(** X1. A step changes no box but the one that has the focus after it:
    every other entry of [boxes] is what it was. *)
Theorem Update_touches_only_the_focused_box b msg b' c (i : Z) :
  Update b msg = Some (b', c) -> i <> activeBox b' ->
  index (boxes b') i = index (boxes b) i.
Proof.
  intros Hu Hi.
  destruct (Update_cases _ _ _ _ Hu)
    as [(-> & _) | [(err & _ & -> & _) | (b1 & cmds & Hd & Hb & _)]];
    [reflexivity | reflexivity |].
  pose proof (delegate_frame _ _ _ _ _ Hd) as (_ & _ & _ & _ & _ & _ & Ha & _).
  rewrite Ha in Hi. rewrite (delegate_other_boxes _ _ _ _ _ i Hd Hi), Hb. reflexivity.
Qed.

(** X2. On a bubble whose loaded state has its two boxes and whose focus
    is 0 or 1, [Update] panics exactly on a selection or an activation
    whose index is not one of the menu. *)
Theorem Update_panics_iff b msg :
  wf b -> (Update b msg = None <-> ~ admissible b msg).
Proof.
  intros Hwf. split.
  - intros Hnone Hadm. destruct (Update_total b msg Hwf Hadm) as (b' & c & Hu).
    rewrite Hu in Hnone. discriminate Hnone.
  - intros Hadm. destruct msg; simpl in Hadm; try (exfalso; apply Hadm; exact I).
    + exact (proj1 (Update_index_out_of_range b Index Hadm)).
    + exact (proj2 (Update_index_out_of_range b Index Hadm)).
Qed.

Lemma Update_tab b :
  wf b ->
  exists b' c, Update b tabKey = Some (b', c) /\
               activeBox b' = (activeBox b + 1) mod 2 /\ wf b'.
Proof.
  intros Hwf. destruct (Update_total b tabKey Hwf I) as (b' & c & Hu).
  exists b', c. split; [exact Hu |]. split; [| exact (Update_wf _ _ _ _ Hwf Hu)].
  rewrite (Update_focus _ _ _ _ Hu). simpl.
  apply focus_cycle. exact (proj1 Hwf).
Qed.

(** X3. The tab key [n] times in a row is processed to its end and moves
    the focus index from [a] to [(a + n) mod 2]. *)
Theorem tabs_move_focus (n : nat) : forall b,
  wf b ->
  exists b' cs,
    run b (replicate n tabKey) = Some (b', cs) /\
    activeBox b' = (activeBox b + Z.of_nat n) mod 2.
Proof.
  induction n as [| n IH]; intros b Hwf.
  - exists b, []. split; [reflexivity |]. rewrite Z.add_0_r.
    symmetry. apply Z.mod_small. exact (proj1 Hwf).
  - destruct (Update_tab b Hwf) as (b1 & c & Hu & Ha & Hwf1).
    destruct (IH b1 Hwf1) as (b2 & cs & Hrun & Ha2).
    exists b2, (match c with Some c' => c' :: cs | None => cs end).
    split; [cbn [replicate run]; rewrite Hu; simpl; rewrite Hrun; reflexivity |].
    rewrite Ha2, Ha, Z.add_mod_idemp_l by lia. f_equal. lia.
Qed.

(** X4. A [windowMsg] is answered in every state with a batch that starts
    with [windowChangesCmd], so that the next window change is waited for;
    state, geometry and focus are as before. *)
Theorem windowMsg_resubscribes b :
  wf b ->
  exists b' cs,
    Update b windowMsg = Some (b', Some (Batch (windowChangesCmd :: cs))) /\
    state b' = state b /\ width b' = width b /\ height b' = height b /\
    activeBox b' = activeBox b.
Proof.
  intros [Hf Hr]. unfold Update.
  destruct (decide (state b = loadedState)) as [Hs | Hs].
  - destruct (boxAt_ready b (activeBox b) Hr Hs Hf) as [box Hbox].
    rewrite (delegate_loaded b _ _ box Hs Hbox), tea_Batch_appendCmd.
    eexists _, _. split; [reflexivity |]. simpl. repeat split.
  - rewrite (delegate_not_loaded b _ _ Hs). exists b, []. repeat split.
Qed.
End MoreSteps.

(** ** Runs of the session *)

Section MoreRuns.
Context `{E : Externals} `{P : Panel} `{L : Layout}.
Implicit Types (b : Bubble) (msg : Msg) (cmds : list Cmd).

Lemma Update_error b msg b' c :
  Update b msg = Some (b', c) ->
  match msg with
  | errMsg e => state b' = errorState /\ error b' = e
  | _ => state b' = state b /\ error b' = error b
  end.
Proof.
  intros Hu.
  destruct (Update_cases _ _ _ _ Hu)
    as [(-> & _ & key & -> & _) | [(err & -> & -> & _) | (b1 & cmds & Hd & _ & Hs & He & _ & Hm)]];
    [split; reflexivity | split; reflexivity |].
  pose proof (delegate_frame _ _ _ _ _ Hd) as (_ & Hs' & He' & _).
  destruct msg; try contradiction; split; congruence.
Qed.

Lemma run_error msgs : forall b b' cs,
  run b msgs = Some (b', cs) ->
  match lastError msgs with
  | Some e => state b' = errorState /\ error b' = e
  | None => state b' = state b /\ error b' = error b
  end.
Proof.
  induction msgs as [| m rest IH]; intros b b' cs H.
  - injection H as <- _. simpl. tauto.
  - apply run_cons in H as (b1 & c & cs' & Hu & Hr & _).
    apply IH in Hr. apply Update_error in Hu. simpl.
    destruct (lastError rest) as [e |]; [exact Hr |].
    destruct m; destruct Hr, Hu; split; congruence.
Qed.

Lemma View_error b cfg :
  config b = Some cfg -> state b = errorState ->
  View b =
    Some (Render (plain appBoxStyle)
            (Cat (Render (Width headerStyle (int_sub (width b) horizontalPadding))
                    (Text (Config_Name cfg)))
               (Cat (Text (newline ++ newline))
                  (Cat (Render (plain errorStyle) (Text ("Bummer: " ++ error b)))
                     (Cat (Text newline) (Render (plain footerStyle) (Text ""))))))).
Proof. intros Hc Hs. unfold View. rewrite Hc, Hs. reflexivity. Qed.

(** X5. After a sequence of messages the last error of which carries the
    text [e], the bubble is in [errorState] with that text, whatever came
    before and after it, and its view, which no longer asks the boxes,
    shows the text after the word Bummer. *)
Theorem last_error_is_shown b cfg (msgs : list Msg) b' cs (e : string) :
  config b = Some cfg -> run b msgs = Some (b', cs) -> lastError msgs = Some e ->
  state b' = errorState /\ error b' = e /\
  exists doc,
    View b' = Some doc /\
    viewBody doc = Some (Render (plain errorStyle) (Text ("Bummer: " ++ e))).
Proof.
  intros Hc Hrun Hlast. pose proof (run_error _ _ _ _ Hrun) as Herr.
  rewrite Hlast in Herr. destruct Herr as [Hs He].
  pose proof (run_frame _ _ _ _ Hrun) as [Hc' _]. rewrite Hc in Hc'.
  split; [exact Hs |]. split; [exact He |].
  eexists. split; [exact (View_error b' cfg Hc' Hs) |]. simpl. rewrite He. reflexivity.
Qed.

(** X6. What a run of the session leaves alone: the configuration and the
    menu always; the state and the error text when no message is an
    error; the geometry when no message is a resize. *)
Theorem run_leaves_alone b (msgs : list Msg) b' cs :
  run b msgs = Some (b', cs) ->
  config b' = config b /\ repoMenu b' = repoMenu b /\
  (Forall (fun m => isError m = false) msgs ->
     state b' = state b /\ error b' = error b) /\
  (Forall (fun m => isResize m = false) msgs ->
     width b' = width b /\ height b' = height b).
Proof.
  intros Hrun. pose proof (run_frame _ _ _ _ Hrun) as [Hc Hm].
  split; [exact Hc |]. split; [exact Hm |]. split.
  - intros Hall. pose proof (run_error _ _ _ _ Hrun) as Herr.
    assert (Hnone : lastError msgs = None).
    { clear -Hall. induction Hall as [| m rest Hm _ IH]; simpl; [reflexivity |].
      rewrite IH. destruct m; try reflexivity. discriminate Hm. }
    rewrite Hnone in Herr. exact Herr.
  - intros Hall. pose proof (run_geometry _ _ _ _ Hrun) as Hg.
    assert (Hnone : lastResize msgs = None).
    { clear -Hall. induction Hall as [| m rest Hm _ IH]; simpl; [reflexivity |].
      rewrite IH. destruct m; try reflexivity. discriminate Hm. }
    rewrite Hnone in Hg. exact Hg.
Qed.

Lemma index_elem_of {A : Type} (l : list A) (i : Z) (x : A) :
  index l i = Some x -> x ∈ l.
Proof.
  unfold index. case_bool_decide; [| discriminate].
  apply list_elem_of_lookup_2.
Qed.

Lemma Update_before_load b msg b' c :
  state b <> loadedState -> Update b msg = Some (b', c) ->
  boxes b' = boxes b /\ state b' <> loadedState /\
  forall c', c = Some c' -> controllerCmd (repoMenu b) c'.
Proof.
  intros Hs Hu.
  destruct (Update_cases _ _ _ _ Hu)
    as [(-> & -> & _) | [(err & _ & -> & ->) | (b1 & cmds & Hd & Hb & Hs1 & _ & _ & Hm)]].
  - split; [reflexivity |]. split; [exact Hs |].
    intros c' [= <-]. left. reflexivity.
  - split; [reflexivity |]. split; [discriminate |]. intros c' Hc. discriminate Hc.
  - rewrite delegate_not_loaded in Hd by (rewrite Hs1; exact Hs).
    injection Hd as <- <-. split; [exact Hb |]. split; [rewrite Hs1; exact Hs |].
    intros c' Hc. destruct msg as [key | err | | w h | i | i | tag].
    + subst cmds. discriminate Hc.
    + contradiction.
    + subst cmds. injection Hc as <-. right. left. reflexivity.
    + subst cmds. discriminate Hc.
    + destruct Hm as (e & He & ->). injection Hc as <-. right. right.
      exists e. split; [exact (index_elem_of _ _ _ He) | reflexivity].
    + destruct Hm as (e & He & ->). injection Hc as <-. right. right.
      exists e. split; [exact (index_elem_of _ _ _ He) | reflexivity].
    + subst cmds. discriminate Hc.
Qed.

(** X7. As long as the bubble is not in [loadedState], and [Update] never
    puts it there, no message reaches a panel: the boxes stay as they are,
    and every command returned is the controller's own, [tea.Quit], the
    wait for the next window change or the load of a repo of the menu. *)
Theorem no_panel_before_load (msgs : list Msg) : forall b b' cs,
  state b <> loadedState -> run b msgs = Some (b', cs) ->
  boxes b' = boxes b /\ state b' <> loadedState /\
  Forall (controllerCmd (repoMenu b)) cs.
Proof.
  induction msgs as [| m rest IH]; intros b b' cs Hs Hrun.
  - injection Hrun as <- <-. repeat split; [exact Hs | constructor].
  - apply run_cons in Hrun as (b1 & c & cs' & Hu & Hr & ->).
    destruct (Update_before_load _ _ _ _ Hs Hu) as (Hb1 & Hs1 & Hc).
    destruct (IH _ _ _ Hs1 Hr) as (Hb2 & Hs2 & Hcs).
    pose proof (Update_frame _ _ _ _ Hu) as (_ & Hmenu & _). rewrite Hmenu in Hcs.
    split; [congruence |]. split; [exact Hs2 |].
    destruct c as [c' |]; [| exact Hcs].
    constructor; [exact (Hc c' eq_refl) | exact Hcs].
Qed.
End MoreRuns.

(** ** The view *)

Section MoreViews.
Context `{E : Externals} `{P : Panel} `{L : Layout}.
Implicit Types (b : Bubble).

Lemma viewForBox_None b (i w : Z) : viewForBox b i w = None <-> boxAt b i = None.
Proof.
  unfold viewForBox. destruct (boxAt b i); simpl; split; intros H;
    solve [reflexivity | discriminate H].
Qed.

(** X8. [View] panics exactly when the configuration is nil or when, in
    [loadedState], one of the two boxes is missing or nil. In the other
    states the boxes are not asked. *)
Theorem View_panics_iff b :
  View b = None <->
  config b = None \/
  (state b = loadedState /\ (boxAt b 0 = None \/ boxAt b 1 = None)).
Proof.
  unfold View. destruct (config b) as [cfg |]; simpl; [| split; [left; reflexivity | reflexivity]].
  destruct (state b) eqn:Hs; simpl;
    try (split; [intros H; discriminate H
                | intros [H | [H _]]; discriminate H]).
  destruct (viewForBox b 0 boxLeftWidth) as [lb |] eqn:H0; simpl.
  - destruct (viewForBox b 1 boxRightWidth) as [rb |] eqn:H1; simpl.
    + split; [intros H; discriminate H |].
      intros [H | [_ [H | H]]]; [discriminate H | |].
      * apply (proj2 (viewForBox_None b 0 boxLeftWidth)) in H. congruence.
      * apply (proj2 (viewForBox_None b 1 boxRightWidth)) in H. congruence.
    + split; [| reflexivity]. intros _. right. split; [reflexivity |].
      right. apply (proj1 (viewForBox_None b 1 boxRightWidth)). exact H1.
  - split; [| reflexivity]. intros _. right. split; [reflexivity |].
    left. apply (proj1 (viewForBox_None b 0 boxLeftWidth)). exact H0.
Qed.

(** X9. In a loaded view the left box is rendered in the style [boxStyle]
    gives box 0 and the right one in that of box 1: the active style for
    the box whose index is the focus, the inactive style for the other.
    The two boxes are never both emphasised, and exactly one is when the
    focus is 0 or 1. *)
Theorem View_emphasises_the_focus b doc :
  state b = loadedState -> View b = Some doc ->
  exists lb rb,
    viewBoxes doc = Some (lb, rb) /\
    docStyle lb = Some (boxStyle b 0) /\ docStyle rb = Some (boxStyle b 1) /\
    (boxStyle b 0 = activeBoxStyle <-> activeBox b = 0) /\
    (boxStyle b 1 = activeBoxStyle <-> activeBox b = 1) /\
    ~ (boxStyle b 0 = activeBoxStyle /\ boxStyle b 1 = activeBoxStyle).
Proof.
  intros Hs Hv. unfold View in Hv.
  destruct (config b) as [cfg |]; simpl in Hv; [| discriminate Hv].
  rewrite Hs in Hv. simpl in Hv.
  destruct (boxAt b 0) as [b0 |] eqn:H0;
    [| apply (proj2 (viewForBox_None b 0 boxLeftWidth)) in H0; rewrite H0 in Hv;
       discriminate Hv].
  destruct (boxAt b 1) as [b1 |] eqn:H1;
    [| apply (proj2 (viewForBox_None b 1 boxRightWidth)) in H1; rewrite H1 in Hv;
       destruct (viewForBox b 0 boxLeftWidth); discriminate Hv].
  rewrite (viewForBox_Some b 0 boxLeftWidth b0 H0) in Hv.
  rewrite (viewForBox_Some b 1 boxRightWidth b1 H1) in Hv.
  simpl in Hv. injection Hv as <-.
  eexists _, _. split; [reflexivity |]. split; [reflexivity |]. split; [reflexivity |].
  assert (A0 : boxStyle b 0 = activeBoxStyle <-> activeBox b = 0).
  { unfold boxStyle. case_bool_decide; split; intros H'; try discriminate H';
      congruence. }
  assert (A1 : boxStyle b 1 = activeBoxStyle <-> activeBox b = 1).
  { unfold boxStyle. case_bool_decide; split; intros H'; try discriminate H';
      congruence. }
  split; [exact A0 |]. split; [exact A1 |].
  intros [Ha Hb]. apply A0 in Ha. apply A1 in Hb. lia.
Qed.

(** The view never reads the height, the menu or the repo source. *)
Lemma View_reads b (h : Z) (menu : list MenuEntry) (p : RepoSourcePtr) :
  View (mkBubble (config b) (state b) (error b) (width b) h p menu (boxes b)
          (activeBox b)) = View b.
Proof. reflexivity. Qed.
End MoreViews.

(** ** The handler and the polling goroutine *)

Section MoreServer.
Context `{E : Externals} `{P : Panel} `{L : Layout}.

(** X10. The handler panics exactly when a session without command and
    with an active pty arrives while [appCfg] is nil; a session with a
    command or without a pty gets [(nil, nil)], whatever [appCfg] is. *)
Theorem handler_panics_iff (s : Server) (sess : Session) :
  (handler s sess = None <->
     appCfg s = None /\ Session_Command sess = [] /\ Session_active sess = true) /\
  (handler s sess = Some None <->
     Session_Command sess <> [] \/ Session_active sess = false).
Proof.
  unfold handler, NewBubble.
  destruct (Session_Command sess) as [| c cs]; [| split; split;
    [ intros H; discriminate H | intros (_ & H & _); discriminate H
    | intros _; left; discriminate | reflexivity ]].
  destruct (Session_active sess); [| split; split;
    [ intros H; discriminate H | intros (_ & _ & H); discriminate H
    | intros _; right; reflexivity | reflexivity ]].
  destruct (appCfg s) as [cfg |]; simpl; split; split;
    try (intros H; discriminate H); try tauto.
  - intros (H & _). discriminate H.
  - intros [H | H]; [contradiction | discriminate H].
  - intros [H | H]; [contradiction | discriminate H].
Qed.

(** X11. The bubble the handler makes for a session with a terminal starts
    in [startState] with the focus on box 0, holds the configuration and
    its repo source, and takes its geometry from the pty; its first view
    needs no box and shows the placeholder under a header as wide as the
    pty less the padding. *)
Theorem handler_bubble_first_view (s : Server) (sess : Session) cfg :
  appCfg s = Some cfg -> Session_Command sess = [] -> Session_active sess = true ->
  exists b doc,
    handler s sess = Some (Some (b, [WithAltScreen])) /\
    state b = startState /\ activeBox b = 0 /\
    config b = Some cfg /\ repoSource b = Config_RepoSource cfg /\
    width b = Window_Width (Session_Pty sess) /\
    height b = Window_Height (Session_Pty sess) /\
    View b = Some doc /\
    headerWidth doc =
      Some (int_sub (Window_Width (Session_Pty sess)) horizontalPadding) /\
    viewBody doc = Some (Render (plain normalStyle) (Text "Doing something weird 0")).
Proof.
  intros Hcfg Hcmd Hact. unfold handler. rewrite Hcmd, Hact, Hcfg. simpl.
  eexists _, _. split; [reflexivity |]. simpl. repeat split.
Qed.

(** The rounds of the goroutine, one after the other. *)
Lemma poll_log (s : Server) :
  exists lines, logged (poll s) = (logged s ++ lines)%list /\ (length lines <= 1)%nat.
Proof.
  unfold poll. destruct (LoadRepos (server_rs s)) as [rs1 [e |]].
  - eexists. split; [reflexivity |]. simpl. lia.
  - destruct (loadConfig rs1) as [rs2 [e | cfg]].
    + eexists. split; [reflexivity |]. simpl. lia.
    + exists []. split; [simpl; rewrite app_nil_r; reflexivity | simpl; lia].
Qed.

Lemma poll_appCfg (s : Server) :
  appCfg (poll s) = appCfg s \/ exists cfg, appCfg (poll s) = Some cfg.
Proof.
  unfold poll. destruct (LoadRepos (server_rs s)) as [rs1 [e |]]; [left; reflexivity |].
  destruct (loadConfig rs1) as [rs2 [e | cfg]]; [left; reflexivity |].
  right. eauto.
Qed.

(** X12. Over any number of rounds the log only grows, by one line a
    round at most: what was logged stays at the head of the log. *)
Theorem poll_log_grows (n : nat) (s : Server) :
  exists lines,
    logged (Nat.iter n poll s) = (logged s ++ lines)%list /\ (length lines <= n)%nat.
Proof.
  induction n as [| n (lines & Hl & Hn)]; simpl.
  - exists []. split; [rewrite app_nil_r; reflexivity | simpl; lia].
  - destruct (poll_log (Nat.iter n poll s)) as (l1 & Hl1 & Hn1).
    exists (lines ++ l1)%list. split.
    + rewrite Hl1, Hl, app_assoc. reflexivity.
    + rewrite length_app. lia.
Qed.

(** X13. Once a configuration is published no round takes it away: after
    any number of rounds, failed or not, [appCfg] is not nil and the
    handler does not panic, whatever the session. *)
Theorem published_config_stays (n : nat) (s : Server) :
  appCfg s <> None ->
  appCfg (Nat.iter n poll s) <> None /\
  forall sess, handler (Nat.iter n poll s) sess <> None.
Proof.
  intros Hs.
  assert (Hn : appCfg (Nat.iter n poll s) <> None).
  { induction n as [| n IH]; simpl; [exact Hs |].
    destruct (poll_appCfg (Nat.iter n poll s)) as [Heq | (cfg & Heq)];
      rewrite Heq; [exact IH | discriminate]. }
  split; [exact Hn |]. intros sess Hpanic. unfold handler, NewBubble in Hpanic.
  destruct (Session_Command sess); [| discriminate Hpanic].
  destruct (Session_active sess); [| discriminate Hpanic].
  destruct (appCfg (Nat.iter n poll s)); [discriminate Hpanic | contradiction].
Qed.
End MoreServer.

(** ** Loading the configuration *)

Section MoreLoading.
Context `{E : Externals}.

Lemma afterUnmarshal_not_io (r : Config * RepoSource * option JsonError) rs' (e : string) :
  afterUnmarshal r <> (rs', inl (CannotLoadConfigRepo e)) /\
  afterUnmarshal r <> (rs', inl (CannotLoadConfigJson e)).
Proof.
  destruct r as [[cfg rs2] [err |]]; simpl; split; intros H; discriminate H.
Qed.

(** X14. The error of [loadConfig] names the step that failed: it is
    "cannot load config repo" exactly when [GetRepo] fails, "cannot load
    config.json" exactly when the repo is there and [LatestFile] fails,
    each with the message of the failure; in both cases the repo source is
    left as it was. *)
Theorem loadConfig_names_the_failed_step rs rs' (e : string) :
  (loadConfig rs = (rs', inl (CannotLoadConfigRepo e)) <->
     rs' = rs /\ GetRepo rs "config" = inl e) /\
  (loadConfig rs = (rs', inl (CannotLoadConfigJson e)) <->
     rs' = rs /\ exists cr, GetRepo rs "config" = inr cr /\
                            LatestFile cr "config.json" = inl e).
Proof.
  unfold loadConfig. destruct (GetRepo rs "config") as [e1 | cr] eqn:Hg.
  - split; split.
    + intros [= <- <-]. split; reflexivity.
    + intros [-> [= ->]]. reflexivity.
    + intros H. discriminate H.
    + intros (_ & cr & H & _). discriminate H.
  - destruct (LatestFile cr "config.json") as [e2 | text] eqn:Hl.
    + split; split.
      * intros H. discriminate H.
      * intros [_ H]. discriminate H.
      * intros [= <- <-]. split; [reflexivity |]. exists cr. split; [reflexivity | exact Hl].
      * intros (-> & cr' & [= <-] & H). rewrite Hl in H. injection H as ->. reflexivity.
    + destruct (afterUnmarshal_not_io (Unmarshal text newConfig rs) rs' e) as [H1 H2].
      split; split.
      * intros H. contradiction.
      * intros [_ H]. discriminate H.
      * intros H. contradiction.
      * intros (_ & cr' & [= <-] & H). rewrite Hl in H. discriminate H.
Qed.

Lemma setConfigField_other f j cfg rs saved :
  f <> FRepoSource ->
  (setConfigField f j cfg rs saved).1.2 = rs /\
  Config_RepoSource (setConfigField f j cfg rs saved).1.1 = Config_RepoSource cfg.
Proof.
  intros Hf. destruct f; try contradiction; simpl.
  - destruct (decodeString j (Config_Name cfg) saved). split; reflexivity.
  - destruct (decodeString j (Config_Host cfg) saved). split; reflexivity.
  - destruct (decodeInt64 j (Config_Port cfg) saved). split; reflexivity.
  - destruct (decodeBool j (Config_ShowAllRepos cfg) saved). split; reflexivity.
  - destruct (decodeMenu j (Config_Menu cfg) saved). split; reflexivity.
Qed.

Lemma decodeConfigMembers_other ms : forall cfg rs saved,
  Forall (fun m => ~ namesRepoSource m) ms ->
  (decodeConfigMembers ms cfg rs saved).1.2 = rs /\
  Config_RepoSource (decodeConfigMembers ms cfg rs saved).1.1 = Config_RepoSource cfg.
Proof.
  induction ms as [| [key j] rest IH]; intros cfg rs saved Hall; simpl;
    [split; reflexivity |].
  inversion Hall as [| ? ? Hm Hrest]; subst. unfold namesRepoSource in Hm. simpl in Hm.
  destruct (findField configFields key) as [f |]; [| apply IH; exact Hrest].
  assert (Hf : f <> FRepoSource) by congruence.
  destruct (setConfigField_other f j cfg rs saved Hf) as [Hrs Hp].
  destruct (setConfigField f j cfg rs saved) as [[cfg' rs'] sv]. simpl in Hrs, Hp.
  subst rs'. rewrite <- Hp. apply IH. exact Hrest.
Qed.

(** X15. A document none of whose keys names the field [RepoSource] does
    not touch the repo source: [loadConfig] leaves its state as it was,
    and the configuration it returns points to the repo source it was
    given. *)
Theorem loadConfig_keeps_the_repo_source rs cr (text : string)
    (ms : list (string * JSON)) :
  GetRepo rs "config" = inr cr -> LatestFile cr "config.json" = inr text ->
  scan text = Some (JObject ms) ->
  Forall (fun m => ~ namesRepoSource m) ms ->
  exists r,
    loadConfig rs = (rs, r) /\
    forall cfg, r = inr cfg -> Config_RepoSource cfg = sharedPtr.
Proof.
  intros Hr Hf Hscan Hall. rewrite (loadConfig_text rs cr text Hr Hf).
  unfold Unmarshal. rewrite Hscan. unfold decodeConfig.
  destruct (decodeConfigMembers_other ms newConfig rs None Hall) as [Hrs Hp].
  destruct (decodeConfigMembers ms newConfig rs None) as [[cfg' rs'] [e |]];
    simpl in Hrs, Hp |- *; subst rs'.
  - eexists. split; [reflexivity |]. intros cfg H. discriminate H.
  - eexists. split; [reflexivity |]. intros cfg [= <-]. exact Hp.
Qed.

Lemma exactField_folded (key : string) (f : ConfigField) :
  exactField configFields key = Some f -> foldedField configFields key = Some f.
Proof.
  unfold configFields. cbn [exactField].
  repeat (destruct (String.eqb _ key) eqn:Heq;
          [apply String.eqb_eq in Heq; subst key; intros [= <-]; reflexivity | clear Heq]).
  intros H. discriminate H.
Qed.

Lemma foldedField_fold {F : Type} (fields : list (string * F)) (key key' : string) :
  foldName key = foldName key' -> foldedField fields key = foldedField fields key'.
Proof.
  intros Hk. induction fields as [| [name f] rest IH]; simpl; [reflexivity |].
  unfold equalFold. rewrite Hk, IH. reflexivity.
Qed.

(** X16. The keys of the configuration are matched without regard to
    case: two keys with the same folding name the same field of [Config],
    or none. *)
Theorem config_keys_fold (key key' : string) :
  foldName key = foldName key' ->
  findField configFields key = findField configFields key'.
Proof.
  intros Hk.
  assert (Hfind : forall k, findField configFields k = foldedField configFields k).
  { intros k. unfold findField.
    destruct (exactField configFields k) as [f |] eqn:Hex; [| reflexivity].
    symmetry. exact (exactField_folded k f Hex). }
  rewrite !Hfind. exact (foldedField_fold configFields key key' Hk).
Qed.
End MoreLoading.

(** ** The length of a decoded menu *)

Lemma growSlice_cap (i : nat) (s : Slice) :
  (i <= len s <= cap s)%nat ->
  len (growSlice i s) = len s /\ (i < cap (growSlice i s))%nat /\
  (len (growSlice i s) <= cap (growSlice i s))%nat.
Proof.
  intros Hs. unfold growSlice. case_bool_decide as Hcap; [| lia].
  unfold cap in *. cbn [arr len]. rewrite length_app, length_take, length_replicate.
  pose proof (Nat.div_mod_eq (length (arr s)) 2) as Hdiv.
  pose proof (Nat.mod_upper_bound (length (arr s)) 2 ltac:(lia)) as Hmod.
  case_bool_decide; lia.
Qed.

Lemma decodeElement_len (i : nat) (j : JSON) (s : Slice) (saved : option JsonError) :
  (i <= len s <= cap s)%nat ->
  len (decodeElement i j s saved).1 = Nat.max (len s) (S i) /\
  (len (decodeElement i j s saved).1 <= cap (decodeElement i j s saved).1)%nat.
Proof.
  intros Hs. destruct (growSlice_cap i s Hs) as (Hlen & Hcap & Hwf).
  unfold decodeElement. set (s1 := growSlice i s) in *.
  assert (Hext : len (extendSlice i s1) = Nat.max (len s) (S i) /\
                 cap (extendSlice i s1) = cap s1).
  { unfold extendSlice. case_bool_decide; unfold cap; cbn [arr len]; lia. }
  destruct Hext as [Hl2 Hc2]. set (s2 := extendSlice i s1) in *.
  destruct (arr s2 !! i) as [e |].
  - destruct (decodeMenuEntry j e saved) as [e' sv]. unfold cap in *. cbn [fst arr len].
    rewrite length_insert. lia.
  - cbn [fst]. lia.
Qed.

Lemma decodeElements_len (vs : list JSON) : forall (i : nat) (s : Slice) saved,
  (i <= len s <= cap s)%nat ->
  len (decodeElements i vs s saved).1 = Nat.max (len s) (i + length vs) /\
  (len (decodeElements i vs s saved).1 <= cap (decodeElements i vs s saved).1)%nat.
Proof.
  induction vs as [| j rest IH]; intros i s saved Hs; simpl.
  - lia.
  - destruct (decodeElement_len i j s saved Hs) as [Hl Hc].
    destruct (decodeElement i j s saved) as [s' sv]. cbn [fst] in Hl, Hc.
    destruct (IH (S i) s' sv ltac:(lia)) as [Hl' Hc'].
    split; [rewrite Hl', Hl; lia | exact Hc'].
Qed.

(** X17. An array decoded into the menu gives a menu with as many entries
    as the array has values, whether or not each of them decodes without
    error and whatever the slice held before; the length stays within the
    capacity. *)
Theorem decodeMenu_length (vs : list JSON) (s : Slice) (saved : option JsonError) :
  (len s <= cap s)%nat ->
  length (elems (decodeMenu (JArray vs) s saved).1) = length vs /\
  (len (decodeMenu (JArray vs) s saved).1 <= cap (decodeMenu (JArray vs) s saved).1)%nat.
Proof.
  intros Hs. unfold decodeMenu.
  destruct (decodeElements_len vs 0 s saved ltac:(lia)) as [Hl Hc].
  destruct (decodeElements 0 vs s saved) as [s1 sv]. cbn [fst] in Hl, Hc |- *.
  simpl in Hl. unfold elems, cap in *.
  case_bool_decide as Hzero.
  - cbn [arr len]. rewrite Hzero. split; reflexivity.
  - case_bool_decide as Hlt; cbn [arr len]; rewrite length_take; lia.
Qed.

(** ** Delivery in the loaded state, and loads that succeed *)

Section MoreDelivery.
Context `{E : Externals} `{P : Panel} `{L : Layout}.
Implicit Types (b : Bubble) (msg : Msg).

(** X18. In [loadedState] every message but a quit key and an error is
    given to the panel that has the focus once the switch is done, the
    resizes and the window messages as well: that panel is replaced by
    what its [Update] returns for the message. *)
Theorem loaded_message_reaches_focused_panel b msg b' c :
  state b = loadedState -> Update b msg = Some (b', c) ->
  (forall key, msg = KeyMsg key -> isQuitKey key = false) -> isError msg = false ->
  exists box : Box,
    boxAt b (activeBox b') = Some box /\
    boxAt b' (activeBox b') = Some (box_Update box msg).1.
Proof.
  intros Hs Hu Hkey Herr.
  destruct (Update_cases _ _ _ _ Hu)
    as [(_ & _ & key & Hm & Hq) | [(err & -> & _) | (b1 & cmds & Hd & Hb & Hs1 & _)]].
  - rewrite (Hkey key Hm) in Hq. discriminate Hq.
  - discriminate Herr.
  - rewrite Hs in Hs1. unfold delegate in Hd. destruct (decide _); [| contradiction].
    destruct (boxAt b1 (activeBox b1)) as [box |] eqn:Hbox; simpl in Hd; [| discriminate Hd].
    destruct (box_Update box msg) as [ab cmd] eqn:Hup. injection Hd as <- _.
    cbn [activeBox set_boxes boxes]. exists box. split.
    + unfold boxAt in *. rewrite <- Hb. exact Hbox.
    + unfold boxAt, index in *. unfold set_boxes. cbn [boxes activeBox].
      rewrite length_insert.
      case_bool_decide as Hr; [| discriminate Hbox].
      rewrite list_lookup_insert_eq by lia. rewrite Hup. reflexivity.
Qed.
End MoreDelivery.

Section MoreSuccess.
Context `{E : Externals}.

(** X19. [loadConfig] returns a configuration only from a document that
    is there, is well-formed, is an object or [null], and was decoded
    without any error saved: never a configuration that was decoded in
    part. *)
Theorem loadConfig_success rs rs' cfg :
  loadConfig rs = (rs', inr cfg) ->
  exists cr text j,
    GetRepo rs "config" = inr cr /\ LatestFile cr "config.json" = inr text /\
    scan text = Some j /\
    (j = JNull \/ exists ms, j = JObject ms) /\
    decodeConfig j newConfig rs = (cfg, rs', None).
Proof.
  unfold loadConfig. destruct (GetRepo rs "config") as [e | cr] eqn:Hg;
    [intros H; discriminate H |].
  destruct (LatestFile cr "config.json") as [e | text] eqn:Hl;
    [intros H; discriminate H |].
  unfold Unmarshal. destruct (scan text) as [j |] eqn:Hscan;
    [| intros H; discriminate H].
  destruct (decodeConfig j newConfig rs) as [[cfg1 rs1] [e |]] eqn:Hdec; simpl;
    intros H; [discriminate H |]. injection H as <- <-.
  exists cr, text, j. repeat split; try assumption.
  destruct j; simpl in Hdec; try discriminate Hdec; eauto.
Qed.
End MoreSuccess.

(** ** The further properties at work *)

Ltac demo_start_wf := split; [demo_focus | intros Hs; discriminate Hs].

Lemma Update_touches_only_the_focused_box_witness :
  index (boxes (set_boxes [Some (received []); Some (received [tabKey])]
                  (set_activeBox 1 (demoLoaded 80)))) 0 =
  index (boxes (demoLoaded 80)) 0.
Proof.
  eapply (@Update_touches_only_the_focused_box demoExternals demoPanel
           (demoLoaded 80) tabKey _ None 0); [reflexivity | simpl; lia].
Defined.

Lemma Update_panics_iff_witness :
  @Update demoExternals demoPanel (demoLoaded 80) (SelectedMsg 5) = None.
Proof.
  apply (proj2 (@Update_panics_iff demoExternals demoPanel (demoLoaded 80)
                  (SelectedMsg 5) ltac:(demo_wf))).
  unfold admissible. simpl. lia.
Defined.

Lemma tabs_move_focus_witness :
  exists b' cs,
    @run demoExternals demoPanel (demoLoaded 80) (replicate 3 tabKey) = Some (b', cs) /\
    activeBox b' = 1.
Proof.
  apply (@tabs_move_focus demoExternals demoPanel 3 (demoLoaded 80)). demo_wf.
Defined.

Lemma windowMsg_resubscribes_witness :
  exists b' cs,
    @Update demoExternals demoPanel demoStart windowMsg =
      Some (b', Some (Batch (windowChangesCmd :: cs))) /\
    state b' = startState /\ width b' = 80 /\ height b' = 24 /\ activeBox b' = 0.
Proof.
  apply (@windowMsg_resubscribes demoExternals demoPanel demoStart). demo_start_wf.
Defined.

Lemma last_error_is_shown_witness :
  exists b' cs,
    @run demoExternals demoPanel (demoLoaded 80) [errMsg "boom"; tabKey] = Some (b', cs) /\
    state b' = errorState /\ error b' = "boom" /\
    exists doc,
      @View demoExternals demoPanel demoLayout b' = Some doc /\
      viewBody doc = Some (Render (plain errorStyle) (Text "Bummer: boom")).
Proof.
  eexists _, _. split; [reflexivity |].
  eapply (@last_error_is_shown demoExternals demoPanel demoLayout (demoLoaded 80)
           demoConfig [errMsg "boom"; tabKey] _ _ "boom"); reflexivity.
Defined.

Lemma run_leaves_alone_witness :
  exists b' cs,
    @run demoExternals demoPanel (demoLoaded 80) [tabKey; windowMsg] = Some (b', cs) /\
    config b' = Some demoConfig /\ repoMenu b' = repoMenu (demoLoaded 80) /\
    state b' = loadedState /\ width b' = 80.
Proof.
  eexists _, _. split; [reflexivity |].
  edestruct (@run_leaves_alone demoExternals demoPanel (demoLoaded 80)
              [tabKey; windowMsg] _ _ eq_refl) as (Hc & Hm & Hs & Hg).
  split; [exact Hc |]. split; [exact Hm |].
  split; [exact (proj1 (Hs ltac:(repeat constructor)))
         | exact (proj1 (Hg ltac:(repeat constructor)))].
Defined.

Lemma no_panel_before_load_witness :
  exists b' cs,
    @run demoExternals demoPanel demoStart [tabKey; windowMsg; errMsg "x"]
      = Some (b', cs) /\
    boxes b' = [None; None] /\ state b' <> loadedState /\
    Forall (controllerCmd []) cs.
Proof.
  eexists _, _. split; [reflexivity |].
  apply (@no_panel_before_load demoExternals demoPanel
           [tabKey; windowMsg; errMsg "x"] demoStart);
    [intros Hs; discriminate Hs | reflexivity].
Defined.

Lemma View_panics_iff_witness :
  @View demoExternals demoPanel demoLayout
    (mkBubble None startState "" 80 24 sharedPtr [] [None; None] 0) = None.
Proof.
  eapply (proj2 (@View_panics_iff demoExternals demoPanel demoLayout _)).
  left. reflexivity.
Defined.

Lemma View_emphasises_the_focus_witness :
  exists doc lb rb,
    @View demoExternals demoPanel demoLayout (demoLoaded 80) = Some doc /\
    viewBoxes doc = Some (lb, rb) /\
    docStyle lb = Some activeBoxStyle /\ docStyle rb = Some inactiveBoxStyle.
Proof.
  edestruct (@View_emphasises_the_focus demoExternals demoPanel demoLayout
              (demoLoaded 80) _ eq_refl eq_refl) as (lb & rb & Hb & Hl & Hr & _).
  eexists _, lb, rb. split; [reflexivity |]. split; [exact Hb |].
  split; [exact Hl | exact Hr].
Defined.

Lemma handler_panics_iff_witness :
  @handler demoExternals demoPanel
    (@mkServer demoExternals (@NewRepoSource demoExternals "demo") None [])
    demoSession = None.
Proof.
  eapply (proj2 (proj1 (@handler_panics_iff demoExternals demoPanel _ demoSession))).
  repeat split.
Defined.

Lemma handler_bubble_first_view_witness :
  exists b doc,
    @handler demoExternals demoPanel
      (@mkServer demoExternals (@NewRepoSource demoExternals "demo") (Some demoConfig) [])
      demoSession = Some (Some (b, [WithAltScreen])) /\
    state b = startState /\ activeBox b = 0 /\
    config b = Some demoConfig /\ repoSource b = sharedPtr /\
    width b = 80 /\ height b = 24 /\
    @View demoExternals demoPanel demoLayout b = Some doc /\
    headerWidth doc = Some 78 /\
    viewBody doc = Some (Render (plain normalStyle) (Text "Doing something weird 0")).
Proof.
  apply (@handler_bubble_first_view demoExternals demoPanel demoLayout
           (@mkServer demoExternals (@NewRepoSource demoExternals "demo")
              (Some demoConfig) [])
           demoSession demoConfig); reflexivity.
Defined.

Lemma published_config_stays_witness :
  appCfg (Nat.iter 2 (@poll demoExternals)
            (@mkServer demoExternals (@NewRepoSource demoExternals "unreadable")
               (Some demoConfig) [])) <> None /\
  forall sess,
    @handler demoExternals demoPanel
      (Nat.iter 2 (@poll demoExternals)
         (@mkServer demoExternals (@NewRepoSource demoExternals "unreadable")
            (Some demoConfig) [])) sess <> None.
Proof.
  apply (@published_config_stays demoExternals demoPanel 2
           (@mkServer demoExternals (@NewRepoSource demoExternals "unreadable")
              (Some demoConfig) [])).
  discriminate.
Defined.

Lemma loadConfig_names_the_failed_step_witness :
  @loadConfig demoExternals (@NewRepoSource demoExternals "other") =
    (@NewRepoSource demoExternals "other", inl (CannotLoadConfigRepo "repo not found")).
Proof.
  apply (proj2 (proj1 (@loadConfig_names_the_failed_step demoExternals
                         (@NewRepoSource demoExternals "other")
                         (@NewRepoSource demoExternals "other") "repo not found"))).
  split; reflexivity.
Defined.

Lemma loadConfig_keeps_the_repo_source_witness :
  exists r,
    @loadConfig demoExternals (@NewRepoSource demoExternals "full") =
      (@NewRepoSource demoExternals "full", r) /\
    forall cfg, r = inr cfg -> Config_RepoSource cfg = sharedPtr.
Proof.
  apply (@loadConfig_keeps_the_repo_source demoExternals
           (@NewRepoSource demoExternals "full")
           ([("config.json", fullText)] : @Repo demoExternals) fullText
           [("name", JString "Demo"); ("host", JString "0.0.0.0"); ("port", JInt 23);
            ("show_all_repos", JBool true);
            ("menu", JArray (map entryDocument [mkMenuEntry "repo1" "" "repo1"]))]);
    [reflexivity | reflexivity | reflexivity |].
  repeat (apply Forall_cons; split; [intros H; discriminate H |]). apply Forall_nil_2.
Defined.

Lemma config_keys_fold_witness :
  findField configFields "Show_All_REPOS" = findField configFields "show_all_repos".
Proof. apply config_keys_fold. reflexivity. Defined.

Lemma decodeMenu_length_witness :
  length (elems (decodeMenu (JArray [JNull; JInt 3; entryDocument zeroMenuEntry])
                   nilSlice None).1) = 3%nat /\
  (len (decodeMenu (JArray [JNull; JInt 3; entryDocument zeroMenuEntry]) nilSlice None).1
   <= cap (decodeMenu (JArray [JNull; JInt 3; entryDocument zeroMenuEntry])
             nilSlice None).1)%nat.
Proof.
  apply (decodeMenu_length [JNull; JInt 3; entryDocument zeroMenuEntry] nilSlice None).
  simpl. lia.
Defined.

Lemma loaded_message_reaches_focused_panel_witness :
  exists box : @Box demoPanel,
    boxAt (demoLoaded 80) 0 = Some box /\
    boxAt (set_boxes [Some (received [WindowSizeMsg 100 30]); Some (received [])]
             (set_height 30 (set_width 100 (demoLoaded 80)))) 0 =
      Some (box_Update box (WindowSizeMsg 100 30)).1.
Proof.
  apply (@loaded_message_reaches_focused_panel demoExternals demoPanel
           (demoLoaded 80) (WindowSizeMsg 100 30)
           (set_boxes [Some (received [WindowSizeMsg 100 30]); Some (received [])]
              (set_height 30 (set_width 100 (demoLoaded 80)))) None);
    [reflexivity | reflexivity | intros key H; discriminate H | reflexivity].
Defined.

Lemma loadConfig_success_witness :
  exists cr text j,
    @GetRepo demoExternals (@NewRepoSource demoExternals "demo") "config" = inr cr /\
    @LatestFile demoExternals cr "config.json" = inr text /\
    @scan demoExternals text = Some j /\
    (j = JNull \/ exists ms, j = JObject ms) /\
    decodeConfig j newConfig (@NewRepoSource demoExternals "demo") =
      (demoConfig, @NewRepoSource demoExternals "demo", None).
Proof.
  apply (@loadConfig_success demoExternals (@NewRepoSource demoExternals "demo")
           (@NewRepoSource demoExternals "demo") demoConfig).
  reflexivity.
Defined.
